(** * Handover status service (handover_app.py): model and properties

    The Flask application answers three kinds of request from an
    Elasticsearch index of report documents:
    - [handover_result]   GET    /handovers/<token>
    - [handover_results]  GET    /handovers?release=..
    - [delete_handover]   DELETE /handovers/<token>
    and decides with [valid_handover] whether a submission belongs to a
    release.  The index is modelled as the list of its documents; a
    Python exception is an explicit [Raise] in the [outcome] type. *)

From stdpp Require Import base strings gmap list sorting pretty.
From Stdlib Require Import ZArith Ascii.

(** ** Python values and exceptions *)

(** A JSON scalar as stored in a document's params and in a reply. *)
Inductive value :=
  | VStr (s : string)
  | VInt (n : Z).

Global Instance value_eq_dec : EqDecision value.
Proof. solve_decision. Defined.

Inductive exn :=
  | KeyError (k : string)
  | TypeError
  | ValueError
  | HTTPRequestError (msg : string) (status_code : Z).

Inductive outcome (A : Type) :=
  | Ok (a : A)
  | Raise (e : exn).
Arguments Ok {A} a.
Arguments Raise {A} e.

Definition bind {A B} (m : outcome A) (f : A → outcome B) : outcome B :=
  match m with
  | Ok a => f a
  | Raise e => Raise e
  end.

Notation "'let!' x ':=' m 'in' k" := (bind m (fun x => k))
  (at level 10, x name, m at level 100, k at level 200).

(** [for x in xs: acc.append(body(x))], stopping at the first exception. *)
Fixpoint for_append {A B} (body : A → outcome B) (xs : list A) : outcome (list B) :=
  match xs with
  | [] => Ok []
  | x :: xs' =>
      let! r := body x in
      let! rs := for_append body xs' in
      Ok (r :: rs)
  end.

(** [d[k]] on a dict. *)
Definition getitem (d : gmap string value) (k : string) : outcome value :=
  match d !! k with
  | Some v => Ok v
  | None => Raise (KeyError k)
  end.

(** ** The regular expression of [valid_handover]

    [re.match(r'^.*?_(?P<first>\d+)(_(?P<second>\d+))?(_(\d+))?$', src_uri)]
    is embedded as backtracking matchers in continuation-passing style:
    each matcher tries its alternatives in the order of Python's engine and
    hands the rest of the subject to its continuation; [None] makes the
    enclosing matcher try its next alternative. *)

Definition newline : ascii := "010"%char.

(** A string is the sequence of its bytes.  On a subject of ASCII
    characters [\d] is [0-9]; elsewhere Python 3 also takes the decimal
    digits of other scripts, which a byte string does not show, so the
    properties of the matcher below are stated for ASCII subjects
    ([ascii_only]). *)
Definition is_digit (c : ascii) : bool :=
  (48 <=? nat_of_ascii c)%nat && (nat_of_ascii c <=? 57)%nat.

Record re_groups := {
  first : string;
  second : option string;
  third : option string
}.

Section Matchers.
Context {R : Type}.

(** A literal character. *)
Definition re_char (c : ascii) (s : string) (k : string → option R) : option R :=
  match s with
  | String c' s' => if Ascii.eqb c c' then k s' else None
  | EmptyString => None
  end.

(** Greedy [\d*] after the digits [acc] already taken: the longest run
    first, then one digit less on failure of what follows. *)
Fixpoint re_digits_star (acc : string) (s : string)
    (k : string → string → option R) : option R :=
  match s with
  | String c s' =>
      if is_digit c then
        match re_digits_star (acc +:+ String c "") s' k with
        | Some r => Some r
        | None => k acc s
        end
      else k acc s
  | EmptyString => k acc s
  end.

(** Greedy [\d+], capturing. *)
Definition re_digits_plus (s : string) (k : string → string → option R) : option R :=
  match s with
  | String c s' => if is_digit c then re_digits_star (String c "") s' k else None
  | EmptyString => None
  end.

(** [(_(\d+))?]: with the group first, without it on failure. *)
Definition re_opt_segment (s : string) (k : option string → string → option R) : option R :=
  match re_char "_" s (λ s1, re_digits_plus s1 (λ cap rest, k (Some cap) rest)) with
  | Some r => Some r
  | None => k None s
  end.

(** Lazy [.*?]: what follows is tried first, and one more character (any
    but a newline) is consumed only when that fails. *)
Fixpoint re_lazy_dot_star (s : string) (k : string → option R) : option R :=
  match k s with
  | Some r => Some r
  | None =>
      match s with
      | String c s' => if Ascii.eqb c newline then None else re_lazy_dot_star s' k
      | EmptyString => None
      end
  end.
End Matchers.

(** [$]: the end of the subject, or just before a final newline. *)
Definition re_end (s : string) : bool :=
  match s with
  | EmptyString => true
  | String c EmptyString => Ascii.eqb c newline
  | _ => false
  end.


Definition handover_pattern (src_uri : string) : option re_groups :=
  re_lazy_dot_star src_uri (λ s0,
  re_char "_" s0 (λ s1,
  re_digits_plus s1 (λ g1 s2,
  re_opt_segment s2 (λ g3 s3,
  re_opt_segment s3 (λ g5 s4,
  if re_end s4 then Some {| first := g1; second := g3; third := g5 |} else None))))).

(** What the pattern accepts, read off the expression: some prefix without
    newline, an underscore, one to three runs of digits separated by
    underscores, and the end of the subject. *)

Fixpoint no_newline (s : string) : bool :=
  match s with
  | EmptyString => true
  | String c s' => negb (Ascii.eqb c newline) && no_newline s'
  end.

Fixpoint all_digits (s : string) : bool :=
  match s with
  | EmptyString => true
  | String c s' => is_digit c && all_digits s'
  end.

Definition digits (s : string) : Prop := s ≠ "" ∧ all_digits s = true.

Definition opt_digits (g : option string) : Prop :=
  match g with
  | Some d => digits d
  | None => True
  end.

Definition segment (g : option string) : string :=
  match g with
  | Some d => "_" +:+ d
  | None => ""
  end.

Definition trailing_numeric (identifier : string) : Prop :=
  ∃ (prefix g1 : string) (g3 g5 : option string) (tail : string),
    identifier = prefix +:+ "_" +:+ g1 +:+ segment g3 +:+ segment g5 +:+ tail ∧
    no_newline prefix = true ∧ digits g1 ∧ opt_digits g3 ∧ opt_digits g5 ∧
    re_end tail = true.



(** A subject of ASCII characters. *)
Fixpoint ascii_only (s : string) : bool :=
  match s with
  | EmptyString => true
  | String c s' => (nat_of_ascii c <? 128)%nat && ascii_only s'
  end.

(** ** [int] and [==] *)

(** The longest decimal string [int] converts
    ([sys.int_info.default_max_str_digits], in Python 3.11 and in the
    3.7 to 3.10 releases that carry the limit). *)
Definition int_max_str_digits : nat := 4300.

Definition within_int_limit (s : string) : Prop :=
  String.length s ≤ int_max_str_digits.

Definition digit_value (c : ascii) : Z := Z.of_nat (nat_of_ascii c) - 48.

Fixpoint decimal (acc : Z) (s : string) : Z :=
  match s with
  | EmptyString => acc
  | String c s' => decimal (10 * acc + digit_value c) s'
  end.

(** [int(x)] for [x] a match group: [None] is a TypeError, a run of digits
    within the limit is its decimal value, and a longer run is a
    ValueError. *)
Definition int (x : option string) : outcome Z :=
  match x with
  | None => Raise TypeError
  | Some "" => Raise ValueError
  | Some s =>
      if all_digits s then
        if (int_max_str_digits <? String.length s)%nat then Raise ValueError
        else Ok (decimal 0 s)
      else Raise ValueError
  end.

(** [x == release] for [x] a match group ([None == release] is False). *)
Definition group_eq (x : option string) (release : string) : bool :=
  match x with
  | Some s => String.eqb s release
  | None => false
  end.

(** The body of [valid_handover] once [src_uri] is read. *)
Definition matches (src_uri release : string) : outcome bool :=
  match handover_pattern src_uri with
  | Some m =>
      if String.eqb (first m) release then Ok true
      else if group_eq (second m) release then
        let! b := int (second m) in
        let! a := int (Some (first m)) in
        Ok (b - a =? 53)%Z
      else Ok false
  | None => Ok false
  end.

(** ** The Elasticsearch index *)

Record source := {
  message : string;
  report_type : string;
  report_time : Z;          (* the date field, as the number the index sorts on *)
  params : gmap string value
}.

Record doc := {
  _id : string;
  _source : source
}.

(** [{"term": {"params.handover_token.keyword": t}}] *)
Definition term_handover_token (t : string) (d : doc) : bool :=
  bool_decide (params (_source d) !! "handover_token" = Some (VStr t)).

(** [{"term": {"report_type.keyword": ty}}] *)
Definition term_report_type (ty : string) (d : doc) : bool :=
  String.eqb (report_type (_source d)) ty.

(** ["sort": [{"report_time": {"order": "desc"}}]] *)
Definition newer (d1 d2 : doc) : Prop :=
  (report_time (_source d2) ≤ report_time (_source d1))%Z.

Global Instance newer_dec : RelDecision newer.
Proof. intros d1 d2. unfold newer. apply _. Defined.

(** [es.search]: the documents the query accepts, newest first, at most
    [size] of them. *)
Definition es_search (index : list doc) (query : doc → bool) (size : nat) : list doc :=
  take size (merge_sort newer (List.filter query index)).

(** The bool query of both status lookups: must match the token and the
    report type. *)
Definition must_token_type (t ty : string) (d : doc) : bool :=
  term_handover_token t d && term_report_type ty d.

(** [str(x)] *)
Definition str (v : value) : string :=
  match v with
  | VStr s => s
  | VInt n => pretty n
  end.

(** ** GET /handovers/<handover_token> *)

(** Body of the loop over the ERROR hits. *)
Definition error_detail (d : doc) : outcome (gmap string value) :=
  let src := _source d in
  let result : gmap string value := {[ "id" := VStr (_id d) ]} in
  let result := <["message" := VStr (message src)]> result in
  let! v := getitem (params src) "comment" in
  let result := <["comment" := v]> result in
  let! v := getitem (params src) "handover_token" in
  let result := <["handover_token" := v]> result in
  let! v := getitem (params src) "contact" in
  let result := <["contact" := v]> result in
  let! v := getitem (params src) "src_uri" in
  let result := <["src_uri" := v]> result in
  let! v := getitem (params src) "tgt_uri" in
  let result := <["tgt_uri" := v]> result in
  let result := <["report_time" := VInt (report_time src)]> result in
  Ok result.

(** Body of the loop over the INFO hits. *)
Definition info_detail (d : doc) : outcome (gmap string value) :=
  let src := _source d in
  let result : gmap string value := {[ "id" := VStr (_id d) ]} in
  let result := <["message" := VStr (message src)]> result in
  let! v := getitem (params src) "comment" in
  let result := <["comment" := v]> result in
  let! v := getitem (params src) "handover_token" in
  let result := <["handover_token" := v]> result in
  let! v := getitem (params src) "contact" in
  let result := <["contact" := v]> result in
  let! v := getitem (params src) "src_uri" in
  let result := <["src_uri" := v]> result in
  let! v := getitem (params src) "tgt_uri" in
  let result := <["tgt_uri" := v]> result in
  let! v := getitem (params src) "progress_complete" in
  let result := <["progress_complete" := v]> result in
  let! v := getitem (params src) "progress_total" in
  let result := <["progress_total" := v]> result in
  let result := <["report_time" := VInt (report_time src)]> result in
  Ok result.

Definition not_found_message (handover_token : string) : string :=
  "Handover token " +:+ handover_token +:+ " not found".

Definition handover_result (index : list doc) (handover_token : string)
    : outcome (list (gmap string value)) :=
  let res_error := es_search index (must_token_type handover_token "ERROR") 1 in
  let! handover_detail :=
    if negb (length res_error =? 0)%nat then for_append error_detail res_error
    else
      let res := es_search index (must_token_type handover_token "INFO") 1 in
      for_append info_detail res in
  if (length handover_detail =? 0)%nat
  then Raise (HTTPRequestError (not_found_message handover_token) 404)
  else Ok handover_detail.

(** ** [valid_handover] *)

Definition valid_handover (d : doc) (release : string) : outcome bool :=
  let! src_uri := getitem (params (_source d)) "src_uri" in
  match src_uri with
  | VStr s => matches s release
  | VInt _ => Raise TypeError
  end.

(** ** GET /handovers?release=.. *)

Section Listing.
(** The two [query_string] clauses of the listing query (message
    [Handling*], params.tgt_uri against [/.*_<release>(_[0-9]+)?/]) are
    evaluated by Elasticsearch on analysed text; which documents they
    accept is a parameter here. *)
Variable query_string : string → doc → bool.

(** [result['current_message'] = ...] from the newest ERROR report of the
    token, else from its newest INFO report, else left unset. *)
Definition set_current_message (index : list doc) (token : string)
    (result : gmap string value) : gmap string value :=
  let res_error := es_search index (must_token_type token "ERROR") 1 in
  if negb (length res_error =? 0)%nat then
    foldl (λ result doc_error,
             <["current_message" := VStr (message (_source doc_error))]> result)
          result res_error
  else
    let res2 := es_search index (must_token_type token "INFO") 1 in
    foldl (λ result doc2,
             <["current_message" := VStr (message (_source doc2))]> result)
          result res2.

(** One turn of the loop over the hits: [None] when [valid_handover]
    rejects the document and nothing is appended. *)
Definition handover_entry (index : list doc) (release : string) (d : doc)
    : outcome (option (gmap string value)) :=
  let! valid := valid_handover d release in
  if valid then
    let src := _source d in
    let result : gmap string value := {[ "id" := VStr (_id d) ]} in
    let result := <["message" := VStr (message src)]> result in
    let! v := getitem (params src) "comment" in
    let result := <["comment" := v]> result in
    let! token := getitem (params src) "handover_token" in
    let result := <["handover_token" := token]> result in
    let result := set_current_message index (str token) result in
    let! v := getitem (params src) "contact" in
    let result := <["contact" := v]> result in
    let! v := getitem (params src) "src_uri" in
    let result := <["src_uri" := v]> result in
    let! v := getitem (params src) "tgt_uri" in
    let result := <["tgt_uri" := v]> result in
    let result := <["report_time" := VInt (report_time src)]> result in
    Ok (Some result)
  else Ok None.

Fixpoint for_hits (index : list doc) (release : string) (hits : list doc)
    : outcome (list (gmap string value)) :=
  match hits with
  | [] => Ok []
  | d :: hits' =>
      let! entry := handover_entry index release d in
      let! rest := for_hits index release hits' in
      Ok (match entry with Some result => result :: rest | None => rest end)
  end.

(** The hits of the listing query: size 1000, newest first. *)
Definition candidates (index : list doc) (release : string) : list doc :=
  es_search index (query_string release) 1000.

Definition handover_results (index : list doc) (release : string)
    : outcome (list (gmap string value)) :=
  for_hits index release (candidates index release).
End Listing.

(** ** DELETE /handovers/<handover_token> *)

(** [es.delete_by_query] with the token term: the index afterwards. *)
Definition delete_by_query (index : list doc) (query : doc → bool) : list doc :=
  List.filter (λ d, negb (query d)) index.

Definition delete_handover (index : list doc) (handover_token : string)
    : list doc * outcome string :=
  (delete_by_query index (term_handover_token handover_token), Ok handover_token).

(** ** Well-formed reports

    The params every report of a handover carries (the submitted
    specification and its token). *)

Definition required_params : list string :=
  ["comment"; "handover_token"; "contact"; "src_uri"; "tgt_uri"].

Definition has_params (ks : list string) (d : doc) : Prop :=
  Forall (λ k, is_Some (params (_source d) !! k)) ks.

(** The hits the loop of the listing keeps. *)
Definition accepts (release : string) (d : doc) : bool :=
  match valid_handover d release with
  | Ok true => true
  | _ => false
  end.

(** What an entry of the listing takes from its submission report. *)
Definition entry_of (d : doc) (r : gmap string value) : Prop :=
  r !! "id" = Some (VStr (_id d)) ∧
  r !! "src_uri" = params (_source d) !! "src_uri" ∧
  r !! "handover_token" = params (_source d) !! "handover_token".

(** ** Example indices *)

Definition report (id ty : string) (time : Z) (msg : string)
    (ps : gmap string value) : doc :=
  {| _id := id;
     _source := {| message := msg; report_type := ty; report_time := time;
                   params := ps |} |}.

(** The params logged with a submission. *)
Definition submission (token src_uri : string) : gmap string value :=
  <["comment" := VStr "handover new Tiger database"]>
  (<["handover_token" := VStr token]>
  (<["contact" := VStr "joe.blogg@ebi.ac.uk"]>
  (<["src_uri" := VStr src_uri]>
  (<["tgt_uri" := VStr src_uri]> ∅)))).

Definition with_progress (complete total : Z) (ps : gmap string value)
    : gmap string value :=
  <["progress_complete" := VInt complete]> (<["progress_total" := VInt total]> ps).

Definition tiger : gmap string value :=
  submission "T1" "mysql://ensro@prod-1:4525/panthera_tigris_altaica_core_93_1".

Definition leopard : gmap string value :=
  submission "T2" "mysql://ensro@prod-1:4525/panthera_pardus_core_90_1".

(** A handover just submitted. *)
Definition index_submitted : list doc :=
  [ report "a1" "INFO" 1 "Handling tiger" tiger ].

(** A handover in progress. *)
Definition index_running : list doc :=
  [ report "a1" "INFO" 1 "Handling tiger" tiger;
    report "a2" "INFO" 5 "Copying database" (with_progress 1 3 tiger) ].

(** A handover that failed twice, with an INFO report after the failures. *)
Definition index_failed : list doc :=
  [ report "a1" "INFO" 1 "Handling tiger" tiger;
    report "a2" "ERROR" 2 "Health checks failed" (with_progress 1 3 tiger);
    report "a3" "ERROR" 4 "Copy failed" (with_progress 2 3 tiger);
    report "a4" "INFO" 6 "Retrying" (with_progress 2 3 tiger) ].

(** Two handovers, of releases 93 and 90. *)
Definition index_two_releases : list doc :=
  [ report "a1" "INFO" 1 "Handling tiger" tiger;
    report "b1" "INFO" 2 "Handling leopard" leopard ].

(** A token with two submission reports. *)
Definition index_resubmitted : list doc :=
  [ report "a1" "INFO" 1 "Handling tiger" tiger;
    report "a2" "INFO" 2 "Handling tiger" tiger ].

(** A stand-in for the listing's query_string clauses: the message starts
    with Handling. *)
Definition handling (release : string) (d : doc) : bool :=
  String.prefix "Handling" (message (_source d)).

(** A field of the only entry of a reply. *)
Definition reply_field (k : string) (reply : outcome (list (gmap string value)))
    : option value :=
  match reply with
  | Ok [r] => r !! k
  | _ => None
  end.

(** The tokens of a listing, in order. *)
Definition tokens (l : list (gmap string value)) : list (option value) :=
  (λ r : gmap string value, r !! "handover_token") <$> l.

(** The fields an entry copies from its report. *)
Definition copied_from (d : doc) (r : gmap string value) : Prop :=
  r !! "id" = Some (VStr (_id d)) ∧
  r !! "message" = Some (VStr (message (_source d))) ∧
  r !! "report_time" = Some (VInt (report_time (_source d))) ∧
  Forall (λ k, r !! k = params (_source d) !! k) required_params.

(** What an entry of the listing holds: the copied fields, no progress
    field, and the current message looked up for its token. *)
Definition listed_from (index : list doc) (d : doc) (r : gmap string value) : Prop :=
  copied_from d r ∧
  r !! "progress_complete" = None ∧ r !! "progress_total" = None ∧
  ∃ token base,
    params (_source d) !! "handover_token" = Some token ∧
    r !! "current_message" =
      set_current_message index (str token) base !! "current_message".

(** Two entries in the order of the listing: the first is not older. *)
Definition newer_entry (r1 r2 : gmap string value) : Prop :=
  ∃ t1 t2 : Z,
    r1 !! "report_time" = Some (VInt t1) ∧ r2 !! "report_time" = Some (VInt t2) ∧
    (t2 ≤ t1)%Z.

(** A hit that the loop of the listing handles without exception: its
    src_uri is a string, and it has the copied params when it is accepted. *)
Definition well_formed_hit (release : string) (d : doc) : Prop :=
  (∃ s, params (_source d) !! "src_uri" = Some (VStr s)) ∧
  (accepts release d = true → has_params required_params d).

(** ** POST /handovers *)

(** What the call of [handover_database] does: it returns a ticket, raises
    ValueError with a message, or raises another exception. *)
Inductive submitted (ticket : Type) :=
  | Ticket (t : ticket)
  | RaiseValueError (err : string)
  | RaiseOther (e : exn).
Arguments Ticket {ticket} t.
Arguments RaiseValueError {ticket} err.
Arguments RaiseOther {ticket} e.

(** [json_pattern.match(...)] with [json_pattern = re.compile("application/json")]:
    the expression is a literal, matched at the start of the subject. *)
Definition json_pattern_match (content_type : string) : bool :=
  String.prefix "application/json" content_type.

(** The value of [request.json], as far as [in] looks at it: an object,
    an array (its string items; [None] stands for an item of another
    type), a string, null, or a number or boolean. *)
Inductive json :=
  | JObject (spec : gmap string value)
  | JArray (items : list (option string))
  | JString (s : string)
  | JNone
  | JScalar.

(** [k not in spec]: a key of a dict, an item of a list, a part of a
    string; a TypeError on the other values. *)
Definition not_in (k : string) (spec : json) : outcome bool :=
  match spec with
  | JObject fields => Ok (bool_decide (fields !! k = None))
  | JArray items => Ok (bool_decide (Some k ∉ items))
  | JString s =>
      Ok (match String.index 0 k s with
          | None => true
          | Some _ => false
          end)
  | JNone | JScalar => Raise TypeError
  end.

Section Submit.
Context {ticket : Type}.
(** [handover_database] is imported from ensembl_prodinf.handover_tasks;
    [status_code] is the status of an HTTPRequestError raised without one
    (the class is imported from ensembl_prodinf.exceptions). *)
Variable handover_database : json → submitted ticket.
Variable status_code : Z.

(** The endpoint on a request: [header] is what evaluating
    [request.headers['Content-Type']] gives on this request (the header,
    or the exception raised when the request has none), [request_json] is
    what evaluating [request.json] gives (Flask raises for a body it does
    not parse). *)
Definition handovers (header : outcome string) (request_json : outcome json)
    : outcome ticket :=
  let! content_type := header in
  if json_pattern_match content_type then
    let! spec := request_json in
    let! no_src_uri := not_in "src_uri" spec in
    let! no_contact := if no_src_uri then Ok true else not_in "contact" spec in
    let! incomplete := if no_contact then Ok true else not_in "comment" spec in
    if incomplete then
      Raise (HTTPRequestError
               "Handover specification incomplete - please specify src_uri, contact and comment"
               status_code)
    else
      match handover_database spec with
      | Ticket t => Ok t
      | RaiseValueError err =>
          Raise (HTTPRequestError ("Handover submission error: " +:+ err)
                                  status_code)
      | RaiseOther e => Raise e
      end
  else
    Raise (HTTPRequestError ("Could not handle input of type " +:+ content_type)
                            status_code).
End Submit.

(** Reading a reply: whether it is a result, and that result. *)
Definition is_ok {A} (o : outcome A) : bool :=
  match o with
  | Ok _ => true
  | Raise _ => false
  end.

Definition get_ok {A} (default : A) (o : outcome A) : A :=
  match o with
  | Ok a => a
  | Raise _ => default
  end.

(** ** Runs of digits beyond the limit of [int] *)



(** ** Database names

    A prefix in which no underscore is followed by a digit: the pattern
    cannot start its first group inside it. *)

Definition starts_with_digit (s : string) : bool :=
  match s with
  | String c _ => is_digit c
  | EmptyString => false
  end.

Fixpoint underscore_digit_free (s : string) : bool :=
  match s with
  | EmptyString => true
  | String c s' =>
      negb (Ascii.eqb c "_" && starts_with_digit s') && underscore_digit_free s'
  end.

Example matches_93_1 : matches "mysql://u@h:1/homo_sapiens_core_93_1" "93" = Ok true.
Proof. reflexivity. Qed.
Example matches_94 : matches "mysql://u@h:1/homo_sapiens_core_93_1" "94" = Ok false.
Proof. reflexivity. Qed.
Example matches_146 : matches "mysql://u@h:1/x_core_93_146" "146" = Ok true.
Proof. reflexivity. Qed.
Example matches_100 : matches "mysql://u@h:1/x_core_93_100" "100" = Ok false.
Proof. reflexivity. Qed.
Example pattern_4 : handover_pattern "x_1_2_3_4" =
  Some {| first := "2"; second := Some "3"; third := Some "4" |}.
Proof. reflexivity. Qed.

(** * Properties *)

Lemma is_ok_get_ok {A} (default : A) (o : outcome A) :
  is_ok o = true → o = Ok (get_ok default o).
Proof. by destruct o. Qed.

Ltac replies := apply is_ok_get_ok; vm_compute; reflexivity.

(** ** The pattern *)

#[local] Arguments String.append !_ _ / : simpl nomatch.

Lemma append_assoc (s1 s2 s3 : string) : (s1 +:+ s2) +:+ s3 = s1 +:+ s2 +:+ s3.
Proof. induction s1 as [|c s1 IH]; simpl; congruence. Qed.

Lemma append_empty_r (s : string) : s +:+ "" = s.
Proof. induction s as [|c s IH]; simpl; congruence. Qed.


Section MatcherFacts.
Context {R : Type}.
Implicit Types (k : string → string → option R) (r : R).

(** Whatever [\d*] hands to its continuation extends [acc] by digits
    taken from the front of the subject. *)
Lemma re_digits_star_sound s : ∀ acc k r,
  re_digits_star acc s k = Some r →
  ∃ ds rest, s = ds +:+ rest ∧ all_digits ds = true ∧ k (acc +:+ ds) rest = Some r.
Proof.
  induction s as [|c s IH]; intros acc k r H; simpl in H.
  - exists "", "". by rewrite (append_empty_r acc).
  - assert (Hstop : k acc (String c s) = Some r →
      ∃ ds rest, String c s = ds +:+ rest ∧ all_digits ds = true
                 ∧ k (acc +:+ ds) rest = Some r).
    { intros Hk. exists "", (String c s). by rewrite (append_empty_r acc). }
    destruct (is_digit c) eqn:Hc; [| by apply Hstop].
    destruct (re_digits_star (acc +:+ String c "") s k) as [r'|] eqn:E;
      [| by apply Hstop].
    apply IH in E as (ds & rest & -> & Hds & Hk).
    exists (String c ds), rest. simpl. rewrite Hc, Hds.
    rewrite append_assoc in Hk. simpl in Hk. by simplify_eq.
Qed.

Lemma re_digits_plus_sound s k r :
  re_digits_plus s k = Some r →
  ∃ ds rest, s = ds +:+ rest ∧ digits ds ∧ k ds rest = Some r.
Proof.
  destruct s as [|c s]; simpl; [done |].
  destruct (is_digit c) eqn:Hc; [| done].
  intros (ds & rest & -> & Hds & Hk)%re_digits_star_sound.
  exists (String c ds), rest. unfold digits. simpl in *. by rewrite Hc, Hds.
Qed.

(** [\d*] succeeds as soon as its continuation accepts one split. *)
Lemma re_digits_star_stop acc s k :
  is_Some (k acc s) → is_Some (re_digits_star acc s k).
Proof.
  destruct s as [|c s]; simpl; [done |].
  destruct (is_digit c); [| done].
  destruct (re_digits_star _ s k); eauto.
Qed.

Lemma re_digits_star_complete ds : ∀ acc rest k,
  all_digits ds = true → is_Some (k (acc +:+ ds) rest) →
  is_Some (re_digits_star acc (ds +:+ rest) k).
Proof.
  induction ds as [|c ds IH]; intros acc rest k Hds Hk; simpl in *.
  - rewrite append_empty_r in Hk. by apply re_digits_star_stop.
  - apply andb_prop in Hds as [Hc Hds]. rewrite Hc.
    destruct (re_digits_star (acc +:+ String c "") (ds +:+ rest) k) eqn:E;
      [by eauto |].
    exfalso. eapply is_Some_None. rewrite <- E. apply IH; [done |].
    by rewrite append_assoc.
Qed.

Lemma re_digits_plus_complete ds rest k :
  digits ds → is_Some (k ds rest) → is_Some (re_digits_plus (ds +:+ rest) k).
Proof.
  intros [Hne Hds] Hk. destruct ds as [|c ds]; [done |]. simpl in *.
  apply andb_prop in Hds as [Hc Hds]. rewrite Hc.
  by apply re_digits_star_complete.
Qed.

Lemma re_opt_segment_sound s (k' : option string → string → option R) r :
  re_opt_segment s k' = Some r →
  ∃ g rest, s = segment g +:+ rest ∧ opt_digits g ∧ k' g rest = Some r.
Proof.
  unfold re_opt_segment. intros H.
  destruct (re_char "_" s _) as [r'|] eqn:E.
  - destruct s as [|c s]; unfold re_char in E; [done |].
    destruct (Ascii.eqb "_" c) eqn:Hc; [| done].
    apply Ascii.eqb_eq in Hc as <-.
    apply re_digits_plus_sound in E as (ds & rest & -> & Hds & Hk).
    exists (Some ds), rest. simpl. by simplify_eq.
  - by exists None, s.
Qed.

Lemma re_opt_segment_complete g rest (k' : option string → string → option R) :
  opt_digits g → is_Some (k' g rest) →
  is_Some (re_opt_segment (segment g +:+ rest) k').
Proof.
  intros Hg Hk. unfold re_opt_segment.
  destruct (re_char "_" (segment g +:+ rest) _) eqn:E; [by eauto |].
  destruct g as [ds|]; [| done]. exfalso. unfold re_char in E. simpl in E.
  eapply is_Some_None. rewrite <- E.
  by apply (re_digits_plus_complete ds rest (λ cap rest', k' (Some cap) rest')).
Qed.

Lemma re_lazy_dot_star_sound s : ∀ (k0 : string → option R) r,
  re_lazy_dot_star s k0 = Some r →
  ∃ prefix rest, s = prefix +:+ rest ∧ no_newline prefix = true ∧ k0 rest = Some r.
Proof.
  induction s as [|c s IH]; intros k0 r H; simpl in H.
  - exists "", "". by destruct (k0 "").
  - destruct (k0 (String c s)) as [r'|] eqn:E; simpl in H.
    + exists "", (String c s). inversion H; subst r'. split_and!; done.
    + destruct (Ascii.eqb c newline) eqn:Hc; simpl in H; [done |].
      apply IH in H as (prefix & rest & -> & Hp & Hk).
      exists (String c prefix), rest. simpl. by rewrite Hc, Hp.
Qed.

Lemma re_lazy_dot_star_complete prefix : ∀ rest (k0 : string → option R),
  no_newline prefix = true → is_Some (k0 rest) →
  is_Some (re_lazy_dot_star (prefix +:+ rest) k0).
Proof.
  induction prefix as [|c prefix IH]; intros rest k0 Hp Hk; simpl in *.
  - destruct Hk as [r Hk]. destruct rest; simpl; rewrite Hk; eauto.
  - destruct (k0 (String c (prefix +:+ rest))); [by eauto |].
    apply andb_prop in Hp as [Hc Hp].
    apply negb_true_iff in Hc. rewrite Hc. by apply IH.
Qed.
End MatcherFacts.

(** Every match of the pattern splits the subject as the expression
    reads, with the groups being runs of digits. *)
Lemma handover_pattern_sound (src_uri : string) (m : re_groups) :
  handover_pattern src_uri = Some m →
  ∃ prefix tail,
    src_uri = prefix +:+ "_" +:+ first m +:+ segment (second m)
                +:+ segment (third m) +:+ tail ∧
    no_newline prefix = true ∧ digits (first m) ∧ opt_digits (second m) ∧
    opt_digits (third m) ∧ re_end tail = true.
Proof.
  unfold handover_pattern.
  intros (prefix & s0 & -> & Hp & H)%re_lazy_dot_star_sound.
  destruct s0 as [|c s1]; unfold re_char in H; [done |].
  destruct (Ascii.eqb "_" c) eqn:Hc; [| done].
  apply Ascii.eqb_eq in Hc as <-.
  apply re_digits_plus_sound in H as (g1 & s2 & -> & Hg1 & H).
  apply re_opt_segment_sound in H as (g3 & s3 & -> & Hg3 & H).
  apply re_opt_segment_sound in H as (g5 & s4 & -> & Hg5 & H).
  destruct (re_end s4) eqn:Hend; [| done].
  simplify_eq. by exists prefix, s4.
Qed.

(** The pattern matches exactly the identifiers that end in the trailing
    numeric pattern. *)
Lemma handover_pattern_complete (identifier : string) :
  trailing_numeric identifier → is_Some (handover_pattern identifier).
Proof.
  intros (prefix & g1 & g3 & g5 & tail & -> & Hp & Hg1 & Hg3 & Hg5 & Hend).
  unfold handover_pattern.
  apply re_lazy_dot_star_complete; [done |]. unfold re_char. simpl.
  apply (re_digits_plus_complete g1); [done |].
  apply (re_opt_segment_complete g3); [done |].
  apply (re_opt_segment_complete g5); [done |].
  by rewrite Hend.
Qed.


(** ** Matches that need no backtracking *)

Section ExactMatch.
Context {R : Type}.

Lemma re_digits_star_exact ds : ∀ acc rest (k : string → string → option R) r,
  all_digits ds = true → starts_with_digit rest = false →
  k (acc +:+ ds) rest = Some r →
  re_digits_star acc (ds +:+ rest) k = Some r.
Proof.
  induction ds as [|c ds IH]; intros acc rest k r Hds Hrest Hk; simpl in *.
  - rewrite append_empty_r in Hk.
    destruct rest as [|c rest]; simpl in *; [done |]. by rewrite Hrest.
  - apply andb_prop in Hds as [Hc Hds]. rewrite Hc.
    rewrite (IH (acc +:+ String c "") rest k r); [done .. |].
    by rewrite append_assoc.
Qed.

Lemma re_digits_plus_exact ds rest (k : string → string → option R) r :
  digits ds → starts_with_digit rest = false → k ds rest = Some r →
  re_digits_plus (ds +:+ rest) k = Some r.
Proof.
  intros [Hne Hds] Hrest Hk. destruct ds as [|c ds]; [done |]. simpl in *.
  apply andb_prop in Hds as [Hc Hds]. rewrite Hc.
  by apply re_digits_star_exact.
Qed.

Lemma re_opt_segment_exact g rest (k : option string → string → option R) r :
  opt_digits g → (g = None → rest = "") → starts_with_digit rest = false →
  k g rest = Some r →
  re_opt_segment (segment g +:+ rest) k = Some r.
Proof.
  intros Hg Hnone Hrest Hk. unfold re_opt_segment, re_char.
  destruct g as [d|]; simpl.
  - by rewrite (re_digits_plus_exact d rest (λ cap rest', k (Some cap) rest') r).
  - by rewrite (Hnone eq_refl) in *.
Qed.

Lemma starts_with_digit_app s rest :
  starts_with_digit rest = false →
  starts_with_digit (s +:+ rest) = starts_with_digit s.
Proof. intros Hrest. by destruct s. Qed.

Lemma re_lazy_dot_star_cons c s (k0 : string → option R) :
  re_lazy_dot_star (String c s) k0 =
    match k0 (String c s) with
    | Some r => Some r
    | None => if Ascii.eqb c newline then None else re_lazy_dot_star s k0
    end.
Proof. done. Qed.

(** The lazy prefix runs over a prefix in which the first group cannot
    start. *)
Lemma re_lazy_dot_star_skip prefix : ∀ rest (k : string → string → option R),
  no_newline prefix = true → underscore_digit_free prefix = true →
  starts_with_digit rest = false →
  re_lazy_dot_star (prefix +:+ rest) (λ s0, re_char "_" s0 (λ s1, re_digits_plus s1 k)) =
  re_lazy_dot_star rest (λ s0, re_char "_" s0 (λ s1, re_digits_plus s1 k)).
Proof.
  induction prefix as [|c prefix IH]; intros rest k Hnl Hfree Hrest; [done |].
  simpl in Hnl, Hfree.
  apply andb_prop in Hnl as [Hc Hnl]. apply negb_true_iff in Hc.
  apply andb_prop in Hfree as [Hu Hfree]. apply negb_true_iff in Hu.
  change (String c prefix +:+ rest) with (String c (prefix +:+ rest)).
  rewrite re_lazy_dot_star_cons, Hc, (IH rest k) by done.
  unfold re_char at 1.
  destruct (Ascii.eqb "_" c) eqn:E; [| done].
  apply Ascii.eqb_eq in E as <-. rewrite Ascii.eqb_refl in Hu. simpl in Hu.
  assert (Hs : starts_with_digit (prefix +:+ rest) = false).
  { rewrite starts_with_digit_app by done. exact Hu. }
  unfold re_digits_plus.
  destruct (prefix +:+ rest) as [|c' s']; [done |]. simpl in Hs. by rewrite Hs.
Qed.

Lemma re_lazy_dot_star_here s (k0 : string → option R) r :
  k0 s = Some r → re_lazy_dot_star s k0 = Some r.
Proof. intros Hk. destruct s; simpl; by rewrite Hk. Qed.
End ExactMatch.

Lemma starts_with_digit_segment g rest :
  starts_with_digit rest = false → starts_with_digit (segment g +:+ rest) = false.
Proof. intros Hrest. by destruct g. Qed.

(** ** The numbers the pattern captures *)



Section FirstMatch.
Context {R : Type}.




End FirstMatch.







(** ** The release matcher *)

#[local] Arguments int : simpl never.

Lemma int_digits (d : string) :
  digits d → within_int_limit d → int (Some d) = Ok (decimal 0 d).
Proof.
  intros [Hne Hd] Hlim. unfold int. destruct d as [|c d]; [done |].
  rewrite Hd. by apply Nat.ltb_ge in Hlim as ->.
Qed.





Lemma within_int_limit_compute (s : string) :
  (String.length s <=? int_max_str_digits)%nat = true → within_int_limit s.
Proof. apply Nat.leb_le. Qed.




(** ** Searching the index *)

Global Instance newer_total : Total newer.
Proof. intros d1 d2. unfold newer. lia. Qed.

Global Instance newer_trans : Transitive newer.
Proof. intros d1 d2 d3. unfold newer. lia. Qed.

Lemma elem_of_List_filter {A} (f : A → bool) (l : list A) (x : A) :
  x ∈ List.filter f l ↔ x ∈ l ∧ f x = true.
Proof. by rewrite !list_elem_of_In, filter_In. Qed.

Lemma sublist_List_filter {A} (f : A → bool) (l : list A) :
  List.filter f l `sublist_of` l.
Proof.
  induction l as [|x l IH]; simpl; [constructor |].
  destruct (f x); by constructor.
Qed.

Lemma es_search_nil index query size :
  (∀ d, d ∈ index → query d = false) → es_search index query size = [].
Proof.
  intros Hnone. unfold es_search.
  assert (List.filter query index = []) as ->.
  { destruct (List.filter query index) as [|d l] eqn:E; [done |].
    assert (Hd : d ∈ List.filter query index) by (rewrite E; left).
    apply elem_of_List_filter in Hd as [Hd Hq].
    rewrite (Hnone d Hd) in Hq. done. }
  by destruct size.
Qed.

Lemma es_search_elem_of index query size d :
  d ∈ es_search index query size → d ∈ index ∧ query d = true.
Proof.
  unfold es_search. intros Hd.
  apply elem_of_List_filter.
  rewrite <- (merge_sort_Permutation newer).
  eapply elem_of_sublist; [exact Hd | apply sublist_take].
Qed.

Lemma es_search_length index query size :
  length (es_search index query size) ≤ size.
Proof. unfold es_search. rewrite length_take. lia. Qed.

(** With [size] 1 the search returns nothing when no document matches,
    and otherwise one matching document that is at least as new as every
    other matching document. *)
Lemma es_search_newest index query :
  (es_search index query 1 = [] ∧ ∀ d, d ∈ index → query d = false) ∨
  (∃ e, es_search index query 1 = [e] ∧ e ∈ index ∧ query e = true ∧
        ∀ d, d ∈ index → query d = true → newer e d).
Proof.
  unfold es_search.
  pose proof (merge_sort_Permutation newer (List.filter query index)) as Hperm.
  pose proof (StronglySorted_merge_sort newer (List.filter query index)) as Hsort.
  destruct (merge_sort newer (List.filter query index)) as [|e l].
  - left. split; [done |]. intros d Hd.
    destruct (query d) eqn:Hq; [| done].
    assert (Hin : d ∈ List.filter query index) by by apply elem_of_List_filter.
    rewrite <- Hperm in Hin. by apply elem_of_nil in Hin.
  - right. exists e. simpl. rewrite take_0.
    assert (He : e ∈ List.filter query index) by (rewrite <- Hperm; left).
    apply elem_of_List_filter in He as [He Hq].
    split_and!; [done .. |]. intros d Hd Hqd.
    assert (Hin : d ∈ List.filter query index) by by apply elem_of_List_filter.
    rewrite <- Hperm in Hin.
    apply StronglySorted_cons in Hsort as [Hall _].
    apply elem_of_cons in Hin as [-> | Hin]; [unfold newer; lia |].
    by eapply Forall_forall in Hall.
Qed.

Lemma must_token_type_true t ty d :
  must_token_type t ty d = true ↔
  params (_source d) !! "handover_token" = Some (VStr t) ∧ report_type (_source d) = ty.
Proof.
  unfold must_token_type, term_handover_token, term_report_type.
  by rewrite andb_true_iff, bool_decide_eq_true, String.eqb_eq.
Qed.

(** ** The report of one hit *)

Lemma has_params_lookup ks d k :
  has_params ks d → k ∈ ks → ∃ v, params (_source d) !! k = Some v.
Proof. intros H Hk. by apply (proj1 (Forall_forall _ _) H k) in Hk. Qed.

Ltac required_lookups Hd d :=
  destruct (has_params_lookup _ d "comment" Hd) as [?v ?Hcomment]; [set_solver |];
  destruct (has_params_lookup _ d "handover_token" Hd) as [?v ?Htoken]; [set_solver |];
  destruct (has_params_lookup _ d "contact" Hd) as [?v ?Hcontact]; [set_solver |];
  destruct (has_params_lookup _ d "src_uri" Hd) as [?v ?Hsrc]; [set_solver |];
  destruct (has_params_lookup _ d "tgt_uri" Hd) as [?v ?Htgt]; [set_solver |].

Lemma error_detail_ok d :
  has_params required_params d →
  ∃ r, error_detail d = Ok r ∧
       r !! "id" = Some (VStr (_id d)) ∧
       r !! "message" = Some (VStr (message (_source d))) ∧
       r !! "progress_complete" = None ∧ r !! "progress_total" = None ∧
       r !! "status" = None.
Proof.
  intros Hd. required_lookups Hd d.
  unfold error_detail, getitem.
  rewrite Hcomment, Htoken, Hcontact, Hsrc, Htgt. simpl.
  eexists. split; [reflexivity |]. by simplify_map_eq.
Qed.

Lemma info_detail_ok d pc pt :
  has_params required_params d →
  params (_source d) !! "progress_complete" = Some pc →
  params (_source d) !! "progress_total" = Some pt →
  ∃ r, info_detail d = Ok r ∧
       r !! "id" = Some (VStr (_id d)) ∧
       r !! "message" = Some (VStr (message (_source d))) ∧
       r !! "progress_complete" = Some pc ∧ r !! "progress_total" = Some pt ∧
       r !! "status" = None.
Proof.
  intros Hd Hpc Hpt. required_lookups Hd d.
  unfold info_detail, getitem.
  rewrite Hcomment, Htoken, Hcontact, Hsrc, Htgt, Hpc, Hpt. simpl.
  eexists. split; [reflexivity |]. by simplify_map_eq.
Qed.

Lemma info_detail_no_progress d :
  has_params required_params d →
  params (_source d) !! "progress_complete" = None →
  info_detail d = Raise (KeyError "progress_complete").
Proof.
  intros Hd Hpc. required_lookups Hd d.
  unfold info_detail, getitem.
  by rewrite Hcomment, Htoken, Hcontact, Hsrc, Htgt, Hpc.
Qed.

(** ** GET /handovers/<handover_token> *)

Lemma handover_result_hits index handover_token :
  handover_result index handover_token =
    match es_search index (must_token_type handover_token "ERROR") 1 with
    | [] =>
        match es_search index (must_token_type handover_token "INFO") 1 with
        | [] => Raise (HTTPRequestError (not_found_message handover_token) 404)
        | [e] => let! r := info_detail e in Ok [r]
        | _ => handover_result index handover_token
        end
    | [e] => let! r := error_detail e in Ok [r]
    | _ => handover_result index handover_token
    end.
Proof.
  unfold handover_result.
  destruct (es_search index (must_token_type handover_token "ERROR") 1)
    as [|e [|e' l]]; simpl; [| by destruct (error_detail e) | done].
  destruct (es_search index (must_token_type handover_token "INFO") 1)
    as [|e [|e' l]]; simpl; [done | by destruct (info_detail e) | done].
Qed.

Lemma handover_result_no_hits index handover_token :
  (∀ d, d ∈ index → must_token_type handover_token "ERROR" d = false) →
  (∀ d, d ∈ index → must_token_type handover_token "INFO" d = false) →
  handover_result index handover_token =
    Raise (HTTPRequestError (not_found_message handover_token) 404).
Proof.
  intros Herr Hinfo. rewrite handover_result_hits.
  by rewrite !es_search_nil.
Qed.

(** C1 (as the code has it): when the index holds an ERROR report for the
    token, the reply is one entry made from an ERROR report of the token
    with the greatest report_time, whatever INFO reports there are; its
    message is that report's message and it has no progress field.  The
    entry has no status field: no status is computed. *)
Theorem handover_result_error (index : list doc) (handover_token : string) :
  Forall (has_params required_params) index →
  (∃ d, d ∈ index ∧ must_token_type handover_token "ERROR" d = true) →
  ∃ e r,
    e ∈ index ∧
    params (_source e) !! "handover_token" = Some (VStr handover_token) ∧
    report_type (_source e) = "ERROR" ∧
    (∀ d, d ∈ index → must_token_type handover_token "ERROR" d = true →
          (report_time (_source d) ≤ report_time (_source e))%Z) ∧
    handover_result index handover_token = Ok [r] ∧
    r !! "message" = Some (VStr (message (_source e))) ∧
    r !! "progress_complete" = None ∧ r !! "progress_total" = None ∧
    r !! "status" = None.
Proof.
  intros Hwf (d & Hd & Hq).
  destruct (es_search_newest index (must_token_type handover_token "ERROR"))
    as [[_ Hnone] | (e & Hs & He & Hqe & Hmax)].
  { rewrite (Hnone d Hd) in Hq. done. }
  destruct (error_detail_ok e) as (r & Hr & _ & Hmsg & Hpc & Hpt & Hst).
  { by eapply Forall_forall in Hwf. }
  apply must_token_type_true in Hqe as [Htok Hty].
  exists e, r. split_and!; try done.
  rewrite handover_result_hits, Hs, Hr. done.
Qed.

Ltac params_present :=
  unfold has_params, required_params;
  repeat (apply Forall_cons; split); try apply Forall_nil;
  try (eexists; vm_compute; reflexivity).

Lemma handover_result_error_witness :
  ∃ e r,
    e ∈ index_failed ∧
    params (_source e) !! "handover_token" = Some (VStr "T1") ∧
    report_type (_source e) = "ERROR" ∧
    (∀ d, d ∈ index_failed → must_token_type "T1" "ERROR" d = true →
          (report_time (_source d) ≤ report_time (_source e))%Z) ∧
    handover_result index_failed "T1" = Ok [r] ∧
    r !! "message" = Some (VStr (message (_source e))) ∧
    r !! "progress_complete" = None ∧ r !! "progress_total" = None ∧
    r !! "status" = None.
Proof.
  apply (handover_result_error index_failed "T1").
  - params_present.
  - exists (report "a2" "ERROR" 2 "Health checks failed" (with_progress 1 3 tiger)).
    split; [right; left | vm_compute; reflexivity].
Defined.

(** The reply to a failed handover has no status field. *)
Lemma handover_result_error_no_status :
  ¬ ∃ r, handover_result index_failed "T1" = Ok [r] ∧
         r !! "status" = Some (VStr "failed") ∧
         r !! "message" = Some (VStr "Copy failed") ∧
         r !! "progress_complete" = None ∧ r !! "progress_total" = None.
Proof.
  intros (r & Hr & Hst & _).
  assert (E : reply_field "status" (handover_result index_failed "T1") = None)
    by (vm_compute; reflexivity).
  rewrite Hr in E. simpl in E. congruence.
Qed.

(** C2 (as the code has it): when the index holds no ERROR report for the
    token and some INFO report, the reply is made from an INFO report of
    the token with the greatest report_time; when that report carries both
    progress fields the reply is one entry with its message and both
    fields copied, and no status field. *)
Theorem handover_result_info (index : list doc) (handover_token : string) :
  Forall (has_params required_params) index →
  (∀ d, d ∈ index → must_token_type handover_token "ERROR" d = false) →
  (∃ d, d ∈ index ∧ must_token_type handover_token "INFO" d = true) →
  ∃ e,
    e ∈ index ∧
    params (_source e) !! "handover_token" = Some (VStr handover_token) ∧
    report_type (_source e) = "INFO" ∧
    (∀ d, d ∈ index → must_token_type handover_token "INFO" d = true →
          (report_time (_source d) ≤ report_time (_source e))%Z) ∧
    ∀ pc pt,
      params (_source e) !! "progress_complete" = Some pc →
      params (_source e) !! "progress_total" = Some pt →
      ∃ r, handover_result index handover_token = Ok [r] ∧
           r !! "message" = Some (VStr (message (_source e))) ∧
           r !! "progress_complete" = Some pc ∧ r !! "progress_total" = Some pt ∧
           r !! "status" = None.
Proof.
  intros Hwf Herr (d & Hd & Hq).
  destruct (es_search_newest index (must_token_type handover_token "INFO"))
    as [[_ Hnone] | (e & Hs & He & Hqe & Hmax)].
  { rewrite (Hnone d Hd) in Hq. done. }
  apply must_token_type_true in Hqe as [Htok Hty].
  exists e. split_and!; try done. intros pc pt Hpc Hpt.
  destruct (info_detail_ok e pc pt) as (r & Hr & _ & Hmsg & Hpc' & Hpt' & Hst);
    [by eapply Forall_forall in Hwf | done | done |].
  exists r. split_and!; try done.
  rewrite handover_result_hits, (es_search_nil _ _ _ Herr), Hs, Hr. done.
Qed.

Lemma handover_result_info_witness :
  ∃ e,
    e ∈ index_running ∧
    params (_source e) !! "handover_token" = Some (VStr "T1") ∧
    report_type (_source e) = "INFO" ∧
    (∀ d, d ∈ index_running → must_token_type "T1" "INFO" d = true →
          (report_time (_source d) ≤ report_time (_source e))%Z) ∧
    ∀ pc pt,
      params (_source e) !! "progress_complete" = Some pc →
      params (_source e) !! "progress_total" = Some pt →
      ∃ r, handover_result index_running "T1" = Ok [r] ∧
           r !! "message" = Some (VStr (message (_source e))) ∧
           r !! "progress_complete" = Some pc ∧ r !! "progress_total" = Some pt ∧
           r !! "status" = None.
Proof.
  apply (handover_result_info index_running "T1").
  - params_present.
  - intros d Hd. repeat (apply elem_of_cons in Hd as [-> | Hd]);
      [vm_compute; reflexivity .. | by apply elem_of_nil in Hd].
  - exists (report "a1" "INFO" 1 "Handling tiger" tiger).
    split; [left | vm_compute; reflexivity].
Defined.

(** The reply to a handover in progress (1 of 3 steps) has no status
    field. *)
Lemma handover_result_info_no_status :
  ¬ ∃ r, handover_result index_running "T1" = Ok [r] ∧
         r !! "progress_complete" = Some (VInt 1) ∧
         r !! "progress_total" = Some (VInt 3) ∧
         r !! "status" = Some (VStr "running") ∧
         r !! "message" = Some (VStr "Copying database").
Proof.
  intros (r & Hr & _ & _ & Hst & _).
  assert (E : reply_field "status" (handover_result index_running "T1") = None)
    by (vm_compute; reflexivity).
  rewrite Hr in E. simpl in E. congruence.
Qed.

(** C4: a token for which the index holds neither an ERROR nor an INFO
    report is answered with the 404 error, not with an empty reply. *)
Theorem handover_result_not_found (index : list doc) (handover_token : string) :
  (∀ d, d ∈ index →
        params (_source d) !! "handover_token" = Some (VStr handover_token) →
        report_type (_source d) ≠ "ERROR" ∧ report_type (_source d) ≠ "INFO") →
  handover_result index handover_token =
    Raise (HTTPRequestError (not_found_message handover_token) 404).
Proof.
  intros Hnone.
  apply handover_result_no_hits; intros d Hd;
    apply not_true_is_false; intros [Htok Hty]%must_token_type_true;
    destruct (Hnone d Hd Htok); done.
Qed.

Lemma handover_result_not_found_witness :
  handover_result index_running "T2" =
    Raise (HTTPRequestError (not_found_message "T2") 404).
Proof.
  apply (handover_result_not_found index_running "T2").
  intros d Hd Htok. exfalso.
  repeat (apply elem_of_cons in Hd as [-> | Hd]);
    [vm_compute in Htok; discriminate .. | by apply elem_of_nil in Hd].
Defined.

(** C7 (the code at the failing input): the only report of a handover just
    submitted is its INFO submission report, which carries no progress
    field; the status request raises KeyError instead of a reply without
    progress fields. *)
Theorem handover_result_submitted_raises :
  params (_source (report "a1" "INFO" 1 "Handling tiger" tiger)) !! "progress_complete"
    = None ∧
  handover_result index_submitted "T1" = Raise (KeyError "progress_complete").
Proof. split; vm_compute; reflexivity. Qed.

(** C8: once the reports of a token are deleted, the status request for
    the token is answered with the 404 error. *)
Theorem handover_result_after_delete (index : list doc) (handover_token : string) :
  handover_result (delete_handover index handover_token).1 handover_token =
    Raise (HTTPRequestError (not_found_message handover_token) 404).
Proof.
  simpl. unfold delete_by_query.
  apply handover_result_no_hits; intros d [Hd Hdel]%elem_of_List_filter;
    apply not_true_is_false; intros [Htok Hty]%must_token_type_true;
    apply negb_true_iff in Hdel; unfold term_handover_token in Hdel;
    by rewrite bool_decide_eq_false in Hdel.
Qed.

(** C10: a status request that succeeds replies with exactly one entry. *)
Theorem handover_result_one_entry (index : list doc) (handover_token : string)
    (l : list (gmap string value)) :
  handover_result index handover_token = Ok l → length l = 1.
Proof.
  rewrite handover_result_hits.
  pose proof (es_search_length index (must_token_type handover_token "ERROR") 1) as Hle.
  pose proof (es_search_length index (must_token_type handover_token "INFO") 1) as Hli.
  destruct (es_search index (must_token_type handover_token "ERROR") 1)
    as [|e [|e' res]]; [| | simpl in Hle; lia].
  - destruct (es_search index (must_token_type handover_token "INFO") 1)
      as [|e [|e' res]]; [done | | simpl in Hli; lia].
    destruct (info_detail e); simpl; [| done]. by intros [= <-].
  - destruct (error_detail e); simpl; [| done]. by intros [= <-].
Qed.

Lemma handover_result_one_entry_witness :
  ∃ l, handover_result index_failed "T1" = Ok l ∧ length l = 1.
Proof.
  exists (get_ok [] (handover_result index_failed "T1")). split; [replies |].
  apply (handover_result_one_entry index_failed "T1"). replies.
Defined.

(** ** GET /handovers?release=.. *)

Lemma valid_handover_true d release :
  valid_handover d release = Ok true →
  ∃ s, params (_source d) !! "src_uri" = Some (VStr s) ∧ matches s release = Ok true.
Proof.
  unfold valid_handover, getitem.
  destruct (params (_source d) !! "src_uri") as [[s|n]|]; simpl; [| done ..].
  intros H. by exists s.
Qed.

Lemma set_current_message_lookup index token (result : gmap string value) k :
  k ≠ "current_message" →
  set_current_message index token result !! k = result !! k.
Proof.
  intros Hk.
  assert (Hfold : ∀ (hits : list doc) (result0 : gmap string value),
    foldl (λ result1 hit,
             <["current_message" := VStr (message (_source hit))]> result1)
          result0 hits !! k = result0 !! k).
  { induction hits as [|hit hits IH]; intros result0; simpl; [done |].
    by rewrite IH, lookup_insert_ne. }
  unfold set_current_message. by destruct (negb _).
Qed.

Lemma handover_entry_inv index release d entry :
  handover_entry index release d = Ok entry →
  match entry with
  | Some r => valid_handover d release = Ok true ∧ entry_of d r
  | None => valid_handover d release = Ok false
  end.
Proof.
  unfold handover_entry.
  destruct (valid_handover d release) as [[|]|]; simpl; [| by intros [= <-] | done].
  unfold getitem.
  destruct (params (_source d) !! "comment"); simpl; [| done].
  destruct (params (_source d) !! "handover_token") as [token|] eqn:Htok;
    simpl; [| done].
  destruct (params (_source d) !! "contact"); simpl; [| done].
  destruct (params (_source d) !! "src_uri") eqn:Hsrc; simpl; [| done].
  destruct (params (_source d) !! "tgt_uri"); simpl; [| done].
  intros [= <-]. split; [done |]. unfold entry_of. rewrite Htok, Hsrc.
  split_and!.
  - rewrite !lookup_insert_ne by done.
    by rewrite set_current_message_lookup, !lookup_insert_ne, lookup_singleton_eq.
  - rewrite !lookup_insert_ne by done. by rewrite lookup_insert_eq.
  - rewrite !lookup_insert_ne by done.
    by rewrite set_current_message_lookup, lookup_insert_eq.
Qed.

(** The listing has one entry per hit that [valid_handover] accepts, in
    the order of the hits. *)
Lemma for_hits_entries index release hits l :
  for_hits index release hits = Ok l →
  Forall2 entry_of (List.filter (accepts release) hits) l.
Proof.
  revert l. induction hits as [|d hits IH]; intros l H; simpl in H.
  - simplify_eq. constructor.
  - destruct (handover_entry index release d) as [entry|] eqn:E; simpl in H; [| done].
    destruct (for_hits index release hits) as [rest|]; simpl in H; [| done].
    apply handover_entry_inv in E. simplify_eq. simpl. unfold accepts at 1.
    destruct entry as [r|].
    + destruct E as [-> E]. constructor; [done | by apply IH].
    + rewrite E. by apply IH.
Qed.

Lemma accepts_true release d : accepts release d = true ↔ valid_handover d release = Ok true.
Proof.
  unfold accepts. destruct (valid_handover d release) as [[|]|]; naive_solver.
Qed.

Lemma NoDup_fmap_eq {A B} (f : A → B) (l : list A) x y :
  NoDup (f <$> l) → x ∈ l → y ∈ l → f x = f y → x = y.
Proof.
  induction l as [|a l IH]; simpl; intros Hnd Hx Hy Hf; [by apply elem_of_nil in Hx |].
  apply NoDup_cons in Hnd as [Ha Hnd].
  apply elem_of_cons in Hx as [-> | Hx]; apply elem_of_cons in Hy as [-> | Hy];
    [done | | | by apply IH].
  - exfalso. apply Ha. rewrite Hf. by apply list_elem_of_fmap_2.
  - exfalso. apply Ha. rewrite <- Hf. by apply list_elem_of_fmap_2.
Qed.

Lemma candidates_NoDup query_string index release :
  NoDup (_id <$> index) → NoDup (_id <$> candidates query_string index release).
Proof.
  intros Hnd. unfold candidates, es_search.
  eapply sublist_NoDup; [| apply fmap_sublist, sublist_take].
  rewrite (merge_sort_Permutation newer).
  eapply sublist_NoDup; [done | apply fmap_sublist, sublist_List_filter].
Qed.

(** C5: every entry of the listing has a src_uri that the release matcher
    accepts for the release, and no entry stems from a hit whose src_uri
    the matcher rejects (document ids being unique in the index). *)
Theorem handover_results_src_uri_matches (query_string : string → doc → bool)
    (index : list doc) (release : string) (l : list (gmap string value)) :
  NoDup (_id <$> index) →
  handover_results query_string index release = Ok l →
  (∀ r, r ∈ l →
        ∃ s, r !! "src_uri" = Some (VStr s) ∧ matches s release = Ok true) ∧
  (∀ d, d ∈ candidates query_string index release →
        valid_handover d release = Ok false →
        ∀ r, r ∈ l → r !! "id" ≠ Some (VStr (_id d))).
Proof.
  intros Hnd H. apply for_hits_entries in H.
  assert (Hfrom : ∀ r, r ∈ l →
    ∃ d, d ∈ candidates query_string index release ∧
         valid_handover d release = Ok true ∧ entry_of d r).
  { intros r Hr.
    destruct (proj1 (list_elem_of_lookup _ _) Hr) as [i Hi].
    destruct (Forall2_lookup_r _ _ _ _ _ H Hi) as (d & Hd & He).
    apply list_elem_of_lookup_2, elem_of_List_filter in Hd as [Hd Hacc].
    apply accepts_true in Hacc. eauto. }
  split.
  - intros r (d & _ & [s [Hs Hm]]%valid_handover_true & _ & Hsrc & _)%Hfrom.
    exists s. by rewrite Hsrc.
  - intros d Hd Hrej r (d' & Hd' & Hacc & Hid & _)%Hfrom Hid'.
    rewrite Hid in Hid'. simplify_eq.
    assert (d' = d) as ->.
    { eapply NoDup_fmap_eq; [by apply candidates_NoDup | done ..]. }
    congruence.
Qed.

Ltac ids_unique := apply (bool_decide_unpack _); vm_compute; exact I.

Lemma handover_results_src_uri_matches_witness :
  ∃ l, handover_results handling index_two_releases "93" = Ok l ∧
    (∀ r, r ∈ l →
          ∃ s, r !! "src_uri" = Some (VStr s) ∧ matches s "93" = Ok true) ∧
    (∀ d, d ∈ candidates handling index_two_releases "93" →
          valid_handover d "93" = Ok false →
          ∀ r, r ∈ l → r !! "id" ≠ Some (VStr (_id d))).
Proof.
  exists (get_ok [] (handover_results handling index_two_releases "93")).
  split; [replies |].
  apply (handover_results_src_uri_matches handling index_two_releases "93").
  - ids_unique.
  - replies.
Defined.

(** C6 (as the code has it): the listing has one entry per accepted hit,
    so its tokens are those of the accepted hits with their repetitions;
    it is the document ids, unique in the index, that appear at most once. *)
Theorem handover_results_one_entry_per_hit (query_string : string → doc → bool)
    (index : list doc) (release : string) (l : list (gmap string value)) :
  NoDup (_id <$> index) →
  handover_results query_string index release = Ok l →
  tokens l = (λ d, params (_source d) !! "handover_token")
               <$> List.filter (accepts release) (candidates query_string index release) ∧
  NoDup ((λ r : gmap string value, r !! "id") <$> l).
Proof.
  intros Hnd H. apply for_hits_entries in H.
  apply (candidates_NoDup query_string _ release) in Hnd.
  assert (Hsub : NoDup (_id <$> List.filter (accepts release)
                                  (candidates query_string index release))).
  { eapply sublist_NoDup; [done | apply fmap_sublist, sublist_List_filter]. }
  clear Hnd. unfold tokens.
  induction H as [|d r hits l (Hid & _ & Htok) H IH]; simpl.
  - split; [done | constructor].
  - simpl in Hsub. apply NoDup_cons in Hsub as [Hd Hsub].
    destruct (IH Hsub) as [IHtok IHid].
    split; [rewrite Htok; f_equal; exact IHtok |].
    apply NoDup_cons. split; [| done].
    intros (r' & Hr' & Hin)%list_elem_of_fmap.
    destruct (proj1 (list_elem_of_lookup _ _) Hin) as [i Hi].
    destruct (Forall2_lookup_r _ _ _ _ _ H Hi) as (d' & Hd' & Hid' & _).
    apply Hd. rewrite Hid, Hid' in Hr'. simplify_eq.
    rewrite Hr'. by eapply list_elem_of_fmap_2, list_elem_of_lookup_2.
Qed.

Lemma handover_results_one_entry_per_hit_witness :
  ∃ l, handover_results handling index_resubmitted "93" = Ok l ∧
    tokens l = (λ d, params (_source d) !! "handover_token")
                 <$> List.filter (accepts "93") (candidates handling index_resubmitted "93") ∧
    NoDup ((λ r : gmap string value, r !! "id") <$> l).
Proof.
  exists (get_ok [] (handover_results handling index_resubmitted "93")).
  split; [replies |].
  apply (handover_results_one_entry_per_hit handling index_resubmitted "93").
  - ids_unique.
  - replies.
Defined.

(** A token with two accepted submission reports is listed twice. *)
Lemma handover_results_repeats_token :
  ∃ l, handover_results handling index_resubmitted "93" = Ok l ∧
       ¬ NoDup (tokens l).
Proof.
  exists (get_ok [] (handover_results handling index_resubmitted "93")).
  split; [replies |].
  assert (tokens (get_ok [] (handover_results handling index_resubmitted "93"))
          = [Some (VStr "T1"); Some (VStr "T1")]) as ->
    by (vm_compute; reflexivity).
  intros [Hin _]%NoDup_cons. apply Hin. left.
Qed.


(** ** The groups of a database name *)

Lemma handover_pattern_exact (prefix g1 : string) (g3 g5 : option string) :
  no_newline prefix = true → underscore_digit_free prefix = true →
  digits g1 → opt_digits g3 → opt_digits g5 → (g3 = None → g5 = None) →
  handover_pattern (prefix +:+ "_" +:+ g1 +:+ segment g3 +:+ segment g5) =
    Some {| first := g1; second := g3; third := g5 |}.
Proof.
  intros Hnl Hfree Hg1 Hg3 Hg5 Hnone. unfold handover_pattern.
  rewrite re_lazy_dot_star_skip by done.
  apply re_lazy_dot_star_here. unfold re_char at 1. simpl.
  assert (Hs5 : starts_with_digit (segment g5 +:+ "") = false)
    by by apply starts_with_digit_segment.
  rewrite <- (append_empty_r (segment g5)).
  apply re_digits_plus_exact; [done | by apply starts_with_digit_segment |].
  apply re_opt_segment_exact; [done | | done |].
  { intros ->. by rewrite Hnone. }
  by apply re_opt_segment_exact.
Qed.

(** X1: in an identifier made of a prefix of ASCII characters in which no
    underscore is followed by a digit, then one to three runs of digits
    each led by an underscore, the groups of the pattern are these runs in
    order. *)
Theorem handover_pattern_database_name (prefix g1 : string) (g3 g5 : option string) :
  ascii_only prefix = true →
  no_newline prefix = true → underscore_digit_free prefix = true →
  digits g1 → opt_digits g3 → opt_digits g5 → (g3 = None → g5 = None) →
  handover_pattern (prefix +:+ "_" +:+ g1 +:+ segment g3 +:+ segment g5) =
    Some {| first := g1; second := g3; third := g5 |}.
Proof. intros _. apply handover_pattern_exact. Qed.

Ltac names_hypotheses :=
  first [ apply within_int_limit_compute; vm_compute; reflexivity
        | intros ? [= <-]; apply within_int_limit_compute; vm_compute; reflexivity
        | by (vm_compute; auto) ].

Lemma handover_pattern_database_name_witness :
  handover_pattern "mysql://ensro@prod-1:4525/homo_sapiens_core_93_38" =
    Some {| first := "93"; second := Some "38"; third := None |}.
Proof.
  apply (handover_pattern_database_name
           "mysql://ensro@prod-1:4525/homo_sapiens_core" "93" (Some "38") None);
    names_hypotheses.
Defined.

(** X2: on such an identifier, with the runs within the limit of [int],
    [matches] compares the release with the first run as strings, and
    otherwise with the second run under the 53 rule; the third run is
    never compared. *)
Theorem matches_database_name (prefix g1 : string) (g3 g5 : option string)
    (release : string) :
  ascii_only prefix = true →
  no_newline prefix = true → underscore_digit_free prefix = true →
  digits g1 → opt_digits g3 → opt_digits g5 → (g3 = None → g5 = None) →
  within_int_limit g1 → (∀ g, g3 = Some g → within_int_limit g) →
  matches (prefix +:+ "_" +:+ g1 +:+ segment g3 +:+ segment g5) release =
    Ok (String.eqb g1 release ||
        match g3 with
        | Some g => String.eqb g release && (decimal 0 g - decimal 0 g1 =? 53)%Z
        | None => false
        end).
Proof.
  intros _ Hnl Hfree Hg1 Hg3 Hg5 Hnone Hl1 Hl3. unfold matches.
  rewrite handover_pattern_exact by done. simpl.
  destruct (String.eqb g1 release); [done |]. simpl.
  destruct g3 as [g|]; simpl; [| done].
  destruct (String.eqb g release); [| done].
  by rewrite (int_digits g), (int_digits g1) by auto.
Qed.

Lemma matches_database_name_witness :
  matches "mysql://ensro@prod-1:4525/homo_sapiens_core_93_146_7" "7" = Ok false.
Proof.
  apply (matches_database_name
           "mysql://ensro@prod-1:4525/homo_sapiens_core" "93" (Some "146") (Some "7") "7");
    names_hypotheses.
Defined.

(** X3: the pattern matches an identifier of ASCII characters exactly when
    it consists of a prefix without newline, an underscore and one to three
    runs of digits separated by underscores, up to a final newline. *)
Theorem handover_pattern_language (identifier : string) :
  ascii_only identifier = true →
  is_Some (handover_pattern identifier) ↔ trailing_numeric identifier.
Proof.
  intros _. split.
  - intros [m (prefix & tail & ? & ? & ? & ? & ? & ?)%handover_pattern_sound].
    by exists prefix, (first m), (second m), (third m), tail.
  - apply handover_pattern_complete.
Qed.

Lemma handover_pattern_language_witness :
  is_Some (handover_pattern "mysql://ensro@prod-1:4525/homo_sapiens_core_93_38") ↔
  trailing_numeric "mysql://ensro@prod-1:4525/homo_sapiens_core_93_38".
Proof.
  apply (handover_pattern_language "mysql://ensro@prod-1:4525/homo_sapiens_core_93_38").
  vm_compute; reflexivity.
Defined.

(** ** The status of a token and the rest of the index *)

Lemma List_filter_filter_implies {A} (p q : A → bool) (l : list A) :
  (∀ x, q x = true → p x = true) →
  List.filter q (List.filter p l) = List.filter q l.
Proof.
  intros Himp. induction l as [|x l IH]; simpl; [done |].
  destruct (p x) eqn:Hp; simpl.
  - by rewrite IH.
  - destruct (q x) eqn:Hq; [| done]. apply Himp in Hq. congruence.
Qed.

Lemma must_token_type_term t ty d :
  must_token_type t ty d = true → term_handover_token t d = true.
Proof. unfold must_token_type. by intros [? _]%andb_prop. Qed.

Lemma es_search_own_reports index t ty size :
  es_search (List.filter (term_handover_token t) index) (must_token_type t ty) size =
  es_search index (must_token_type t ty) size.
Proof.
  unfold es_search. rewrite List_filter_filter_implies; [done |].
  intros d. apply must_token_type_term.
Qed.

Lemma handover_result_ext index1 index2 t :
  es_search index1 (must_token_type t "ERROR") 1 =
    es_search index2 (must_token_type t "ERROR") 1 →
  es_search index1 (must_token_type t "INFO") 1 =
    es_search index2 (must_token_type t "INFO") 1 →
  handover_result index1 t = handover_result index2 t.
Proof. unfold handover_result. by intros -> ->. Qed.

(** X4: the reply to a status request depends only on the reports that
    carry the requested token. *)
Theorem handover_result_own_reports (index1 index2 : list doc) (handover_token : string) :
  List.filter (term_handover_token handover_token) index1 =
    List.filter (term_handover_token handover_token) index2 →
  handover_result index1 handover_token = handover_result index2 handover_token.
Proof.
  intros Heq. apply handover_result_ext.
  - rewrite <- (es_search_own_reports index1), <- (es_search_own_reports index2).
    by rewrite Heq.
  - rewrite <- (es_search_own_reports index1), <- (es_search_own_reports index2).
    by rewrite Heq.
Qed.

Lemma handover_result_own_reports_witness :
  handover_result index_two_releases "T1" = handover_result index_submitted "T1".
Proof.
  apply (handover_result_own_reports index_two_releases index_submitted "T1").
  vm_compute; reflexivity.
Defined.

Lemma es_search_delete_other index t u ty size :
  u ≠ t →
  es_search (delete_by_query index (term_handover_token u)) (must_token_type t ty) size =
  es_search index (must_token_type t ty) size.
Proof.
  intros Hne. unfold es_search, delete_by_query.
  rewrite List_filter_filter_implies; [done |].
  intros d [Htok _]%must_token_type_true.
  apply negb_true_iff. unfold term_handover_token.
  apply bool_decide_eq_false. rewrite Htok. by intros [= ->].
Qed.

(** X5: deleting the reports of one token leaves the status of every
    other token as it was. *)
Theorem handover_result_delete_other (index : list doc) (deleted handover_token : string) :
  deleted ≠ handover_token →
  handover_result (delete_handover index deleted).1 handover_token =
  handover_result index handover_token.
Proof.
  intros Hne. simpl. apply handover_result_ext; by apply es_search_delete_other.
Qed.

Lemma handover_result_delete_other_witness :
  handover_result (delete_handover index_two_releases "T2").1 "T1" =
  handover_result index_two_releases "T1".
Proof. by apply (handover_result_delete_other index_two_releases "T2" "T1"). Defined.

Lemma List_filter_nil {A} (f : A → bool) (l : list A) :
  Forall (λ x, f x = false) l → List.filter f l = [].
Proof.
  induction 1 as [|x l Hx _ IH]; simpl; [done |]. by rewrite Hx.
Qed.

(** X6: once a token has an ERROR report, reports of any other type
    added to the index do not change the reply. *)
Theorem handover_result_error_is_final (index later : list doc) (handover_token : string) :
  Forall (λ d, report_type (_source d) ≠ "ERROR") later →
  (∃ e, e ∈ index ∧ must_token_type handover_token "ERROR" e = true) →
  handover_result (index ++ later) handover_token =
  handover_result index handover_token.
Proof.
  intros Hlater (e & He & Hq).
  assert (Herr : es_search (index ++ later) (must_token_type handover_token "ERROR") 1 =
                 es_search index (must_token_type handover_token "ERROR") 1).
  { unfold es_search. rewrite List.filter_app, (List_filter_nil _ later).
    - by rewrite app_nil_r.
    - eapply Forall_impl; [exact Hlater |]. intros d Hd. simpl in Hd.
      apply not_true_is_false. by intros [_ ?]%must_token_type_true. }
  unfold handover_result. rewrite Herr.
  destruct (es_search_newest index (must_token_type handover_token "ERROR"))
    as [[_ Hnone] | (e' & -> & _)]; [| done].
  rewrite (Hnone e He) in Hq. done.
Qed.

Lemma handover_result_error_is_final_witness :
  handover_result (index_failed ++ index_running) "T1" =
  handover_result index_failed "T1".
Proof.
  apply (handover_result_error_is_final index_failed index_running "T1").
  - repeat constructor; by vm_compute.
  - exists (report "a2" "ERROR" 2 "Health checks failed" (with_progress 1 3 tiger)).
    split; [right; left | vm_compute; reflexivity].
Defined.

(** X7: an ERROR report of the token that is newer than all its earlier
    ERROR reports becomes the reply as soon as it is in the index. *)
Theorem handover_result_newest_error (index : list doc) (d : doc) (handover_token : string) :
  has_params required_params d →
  must_token_type handover_token "ERROR" d = true →
  (∀ e, e ∈ index → must_token_type handover_token "ERROR" e = true →
        (report_time (_source e) < report_time (_source d))%Z) →
  ∃ r, handover_result (index ++ [d]) handover_token = Ok [r] ∧
       r !! "id" = Some (VStr (_id d)) ∧
       r !! "message" = Some (VStr (message (_source d))).
Proof.
  intros Hwf Hd Hnewer. rewrite handover_result_hits.
  destruct (error_detail_ok d Hwf) as (r & Hr & Hid & Hmsg & _).
  exists r. split; [| done].
  destruct (es_search_newest (index ++ [d]) (must_token_type handover_token "ERROR"))
    as [[_ Hnone] | (e & -> & He & Hqe & Hmax)].
  { rewrite Hnone in Hd; [done |]. apply elem_of_app. right. left. }
  assert (e = d) as ->; [| by rewrite Hr].
  apply elem_of_app in He as [He | He%list_elem_of_singleton]; [| done].
  specialize (Hnewer e He Hqe).
  assert (Hle : newer e d). { apply Hmax; [| done]. apply elem_of_app. right. left. }
  unfold newer in Hle. lia.
Qed.

Lemma handover_result_newest_error_witness :
  ∃ r, handover_result
         (index_failed ++ [report "a5" "ERROR" 9 "Metadata load failed" tiger]) "T1"
       = Ok [r] ∧
       r !! "id" = Some (VStr "a5") ∧
       r !! "message" = Some (VStr "Metadata load failed").
Proof.
  apply (handover_result_newest_error index_failed
           (report "a5" "ERROR" 9 "Metadata load failed" tiger) "T1").
  - params_present.
  - vm_compute; reflexivity.
  - intros e He _. repeat (apply elem_of_cons in He as [-> | He]);
      [by vm_compute .. | by apply elem_of_nil in He].
Defined.

(** ** What a status request returns or raises *)

Ltac lookup_cases d tac :=
  unfold error_detail, info_detail, getitem;
  destruct (params (_source d) !! "comment") eqn:?Hcomment; simpl; [| tac];
  destruct (params (_source d) !! "handover_token") eqn:?Htoken; simpl; [| tac];
  destruct (params (_source d) !! "contact") eqn:?Hcontact; simpl; [| tac];
  destruct (params (_source d) !! "src_uri") eqn:?Hsrc; simpl; [| tac];
  destruct (params (_source d) !! "tgt_uri") eqn:?Htgt; simpl; [| tac].

Ltac progress_cases d tac :=
  destruct (params (_source d) !! "progress_complete") eqn:?Hpc; simpl; [| tac];
  destruct (params (_source d) !! "progress_total") eqn:?Hpt; simpl; [| tac].

Ltac copied_fields :=
  intros [= <-]; unfold copied_from, required_params;
  split_and!; [by simplify_map_eq .. |];
  repeat (apply Forall_cons; split); [by simplify_map_eq .. | done].

Lemma error_detail_copied d r : error_detail d = Ok r → copied_from d r.
Proof. lookup_cases d done. copied_fields. Qed.

Lemma info_detail_copied d r : info_detail d = Ok r → copied_from d r.
Proof. lookup_cases d done. progress_cases d done. copied_fields. Qed.

Lemma handover_result_cases index t :
  (es_search index (must_token_type t "ERROR") 1 = [] ∧
   es_search index (must_token_type t "INFO") 1 = [] ∧
   handover_result index t = Raise (HTTPRequestError (not_found_message t) 404)) ∨
  (∃ d, d ∈ index ∧ params (_source d) !! "handover_token" = Some (VStr t) ∧
        (handover_result index t = (let! r := error_detail d in Ok [r]) ∨
         handover_result index t = (let! r := info_detail d in Ok [r]))).
Proof.
  rewrite handover_result_hits.
  destruct (es_search_newest index (must_token_type t "ERROR"))
    as [[-> _] | (e & -> & He & [Htok _]%must_token_type_true & _)]; [| eauto 10].
  destruct (es_search_newest index (must_token_type t "INFO"))
    as [[-> _] | (e & -> & He & [Htok _]%must_token_type_true & _)]; eauto 10.
Qed.

(** X9: every entry of a successful status reply carries the requested
    token, and its id, message, report_time and submitted fields are those
    of one report of the index. *)
Theorem handover_result_entry (index : list doc) (handover_token : string)
    (l : list (gmap string value)) :
  handover_result index handover_token = Ok l →
  ∀ r, r ∈ l →
    r !! "handover_token" = Some (VStr handover_token) ∧
    ∃ d, d ∈ index ∧ copied_from d r.
Proof.
  destruct (handover_result_cases index handover_token)
    as [(_ & _ & ->) | (d & Hd & Htok & [-> | ->])]; [done | |].
  - destruct (error_detail d) eqn:E; simpl; [| done]. intros [= <-] r ->%list_elem_of_singleton.
    apply error_detail_copied in E. split; [| by eauto].
    destruct E as (_ & _ & _ & E). rewrite <- Htok.
    eapply Forall_forall in E; [exact E | set_solver].
  - destruct (info_detail d) eqn:E; simpl; [| done]. intros [= <-] r ->%list_elem_of_singleton.
    apply info_detail_copied in E. split; [| by eauto].
    destruct E as (_ & _ & _ & E). rewrite <- Htok.
    eapply Forall_forall in E; [exact E | set_solver].
Qed.

Lemma handover_result_entry_witness :
  ∃ l, handover_result index_failed "T1" = Ok l ∧
    ∀ r, r ∈ l →
      r !! "handover_token" = Some (VStr "T1") ∧
      ∃ d, d ∈ index_failed ∧ copied_from d r.
Proof.
  exists (get_ok [] (handover_result index_failed "T1")). split; [replies |].
  apply (handover_result_entry index_failed "T1"). replies.
Defined.


(** ** Deleting a token *)

Lemma List_filter_all {A} (f : A → bool) (l : list A) :
  Forall (λ x, f x = true) l → List.filter f l = l.
Proof.
  induction 1 as [|x l Hx _ IH]; simpl; [done |]. by rewrite Hx, IH.
Qed.

(** X10: deleting a token of which the index holds no report succeeds and
    leaves the index as it is. *)
Theorem delete_handover_unknown (index : list doc) (handover_token : string) :
  (∀ d, d ∈ index →
        params (_source d) !! "handover_token" ≠ Some (VStr handover_token)) →
  delete_handover index handover_token = (index, Ok handover_token).
Proof.
  intros Hnone. unfold delete_handover, delete_by_query.
  rewrite List_filter_all; [done |].
  apply Forall_forall. intros d Hd. apply negb_true_iff.
  unfold term_handover_token. apply bool_decide_eq_false. by apply Hnone.
Qed.

Lemma delete_handover_unknown_witness :
  delete_handover index_running "T2" = (index_running, Ok "T2").
Proof.
  apply (delete_handover_unknown index_running "T2").
  intros d Hd. repeat (apply elem_of_cons in Hd as [-> | Hd]);
    [by vm_compute .. | by apply elem_of_nil in Hd].
Defined.

(** X11: deleting a token a second time changes nothing more. *)
Theorem delete_handover_twice (index : list doc) (handover_token : string) :
  delete_handover (delete_handover index handover_token).1 handover_token =
  delete_handover index handover_token.
Proof.
  unfold delete_handover, delete_by_query. simpl. f_equal.
  by rewrite List_filter_filter_implies.
Qed.

(** X12: after a token is deleted no entry of any listing carries it. *)
Theorem handover_results_after_delete (query_string : string → doc → bool)
    (index : list doc) (handover_token release : string)
    (l : list (gmap string value)) :
  handover_results query_string (delete_handover index handover_token).1 release = Ok l →
  ∀ r, r ∈ l → r !! "handover_token" ≠ Some (VStr handover_token).
Proof.
  intros H r Hr. apply for_hits_entries in H.
  destruct (proj1 (list_elem_of_lookup _ _) Hr) as [i Hi].
  destruct (Forall2_lookup_r _ _ _ _ _ H Hi) as (d & Hd & _ & _ & Htok).
  apply list_elem_of_lookup_2, elem_of_List_filter in Hd as [Hd _].
  apply es_search_elem_of in Hd as [Hd _]. simpl in Hd.
  apply elem_of_List_filter in Hd as [_ Hdel]. apply negb_true_iff in Hdel.
  unfold term_handover_token in Hdel. apply bool_decide_eq_false in Hdel.
  by rewrite Htok.
Qed.

Lemma handover_results_after_delete_witness :
  ∃ l, handover_results handling (delete_handover index_two_releases "T1").1 "90" = Ok l ∧
       ∀ r, r ∈ l → r !! "handover_token" ≠ Some (VStr "T1").
Proof.
  exists (get_ok [] (handover_results handling
                       (delete_handover index_two_releases "T1").1 "90")).
  split; [replies |].
  apply (handover_results_after_delete handling index_two_releases "T1" "90").
  replies.
Defined.

(** ** The entries of a listing *)

Ltac entry_lookup :=
  rewrite ?lookup_insert_ne by done;
  first [ by rewrite lookup_insert_eq
        | rewrite set_current_message_lookup by done; by simplify_map_eq ].

Lemma handover_entry_listed index release d r :
  handover_entry index release d = Ok (Some r) → listed_from index d r.
Proof.
  unfold handover_entry.
  destruct (valid_handover d release) as [[|]|]; simpl; [| done ..].
  unfold getitem.
  destruct (params (_source d) !! "comment") eqn:Hcomment; simpl; [| done].
  destruct (params (_source d) !! "handover_token") as [token|] eqn:Htoken;
    simpl; [| done].
  destruct (params (_source d) !! "contact") eqn:Hcontact; simpl; [| done].
  destruct (params (_source d) !! "src_uri") eqn:Hsrc; simpl; [| done].
  destruct (params (_source d) !! "tgt_uri") eqn:Htgt; simpl; [| done].
  intros [= <-]. unfold listed_from, copied_from, required_params.
  split_and!; try entry_lookup.
  - repeat (apply Forall_cons; split); try done;
      first [rewrite Hcomment | rewrite Htoken | rewrite Hcontact
            | rewrite Hsrc | rewrite Htgt]; entry_lookup.
  - eexists token, _. split; [done |].
    rewrite !lookup_insert_ne by done. reflexivity.
Qed.

Lemma for_hits_listed index release hits l :
  for_hits index release hits = Ok l →
  Forall2 (listed_from index) (List.filter (accepts release) hits) l.
Proof.
  revert l. induction hits as [|d hits IH]; intros l H; simpl in H.
  - simplify_eq. constructor.
  - destruct (handover_entry index release d) as [entry|] eqn:E; simpl in H; [| done].
    destruct (for_hits index release hits) as [rest|]; simpl in H; [| done].
    pose proof (handover_entry_inv _ _ _ _ E) as Hinv.
    simplify_eq. simpl. unfold accepts at 1.
    destruct entry as [r|].
    + destruct Hinv as [-> _]. apply handover_entry_listed in E.
      constructor; [done | by apply IH].
    + rewrite Hinv. by apply IH.
Qed.

Lemma listed_hit (query_string : string → doc → bool) index release l r :
  Forall2 (listed_from index)
          (List.filter (accepts release) (candidates query_string index release)) l →
  r ∈ l →
  ∃ d, d ∈ index ∧ query_string release d = true ∧
       valid_handover d release = Ok true ∧ listed_from index d r.
Proof.
  intros H Hr.
  destruct (proj1 (list_elem_of_lookup _ _) Hr) as [i Hi].
  destruct (Forall2_lookup_r _ _ _ _ _ H Hi) as (d & Hd & Hl).
  apply list_elem_of_lookup_2, elem_of_List_filter in Hd as [Hd Hacc].
  apply es_search_elem_of in Hd as [Hd Hq]. apply accepts_true in Hacc.
  eauto 10.
Qed.

(** X13: every entry of a listing stems from a report of the index that
    the listing query and [valid_handover] accept; it copies the id,
    message, report_time and submitted fields of that report and has no
    progress field. *)
Theorem handover_results_entry (query_string : string → doc → bool)
    (index : list doc) (release : string) (l : list (gmap string value)) :
  handover_results query_string index release = Ok l →
  ∀ r, r ∈ l →
    ∃ d, d ∈ index ∧ query_string release d = true ∧
         valid_handover d release = Ok true ∧ copied_from d r ∧
         r !! "progress_complete" = None ∧ r !! "progress_total" = None.
Proof.
  intros H%for_hits_listed r Hr.
  destruct (listed_hit _ _ _ _ _ H Hr) as (d & ? & ? & ? & ? & ? & ? & _).
  eauto 10.
Qed.

Lemma handover_results_entry_witness :
  ∃ l, handover_results handling index_two_releases "93" = Ok l ∧
    ∀ r, r ∈ l →
      ∃ d, d ∈ index_two_releases ∧ handling "93" d = true ∧
           valid_handover d "93" = Ok true ∧ copied_from d r ∧
           r !! "progress_complete" = None ∧ r !! "progress_total" = None.
Proof.
  exists (get_ok [] (handover_results handling index_two_releases "93")).
  split; [replies |].
  apply (handover_results_entry handling index_two_releases "93"). replies.
Defined.

Lemma StronglySorted_sublist {A} (R : relation A) (l1 l2 : list A) :
  l1 `sublist_of` l2 → StronglySorted R l2 → StronglySorted R l1.
Proof.
  induction 1 as [|x l1 l2 Hsub IH|x l1 l2 Hsub IH]; intros Hs; [done | |].
  - apply StronglySorted_cons in Hs as [Hall Hs].
    apply StronglySorted_cons. split; [| by apply IH].
    apply Forall_forall. intros y Hy.
    eapply Forall_forall in Hall; [exact Hall |]. by eapply elem_of_sublist.
  - apply StronglySorted_cons in Hs as [_ Hs]. by apply IH.
Qed.

Lemma accepted_candidates_sorted (query_string : string → doc → bool) index release :
  StronglySorted newer
    (List.filter (accepts release) (candidates query_string index release)).
Proof.
  eapply StronglySorted_sublist; [apply sublist_List_filter |].
  unfold candidates, es_search.
  eapply StronglySorted_sublist; [apply sublist_take |].
  apply StronglySorted_merge_sort; apply _.
Qed.

Lemma listed_from_newer index d1 d2 r1 r2 :
  newer d1 d2 → listed_from index d1 r1 → listed_from index d2 r2 → newer_entry r1 r2.
Proof.
  intros Hn ((_ & _ & Ht1 & _) & _) ((_ & _ & Ht2 & _) & _).
  by exists (report_time (_source d1)), (report_time (_source d2)).
Qed.

(** X14: a listing is in descending order of report_time. *)
Theorem handover_results_newest_first (query_string : string → doc → bool)
    (index : list doc) (release : string) (l : list (gmap string value)) :
  handover_results query_string index release = Ok l →
  StronglySorted newer_entry l.
Proof.
  intros H%for_hits_listed.
  pose proof (accepted_candidates_sorted query_string index release) as Hs.
  induction H as [|d r hits l Hdr H IH]; [constructor |].
  apply StronglySorted_cons in Hs as [Hall Hs].
  apply StronglySorted_cons. split; [| by apply IH].
  apply Forall_forall. intros r' Hr'.
  destruct (proj1 (list_elem_of_lookup _ _) Hr') as [i Hi].
  destruct (Forall2_lookup_r _ _ _ _ _ H Hi) as (d' & Hd' & Hl').
  eapply listed_from_newer; [| done ..].
  eapply Forall_forall in Hall; [exact Hall |]. by eapply list_elem_of_lookup_2.
Qed.

Lemma handover_results_newest_first_witness :
  ∃ l, handover_results handling index_resubmitted "93" = Ok l ∧
       StronglySorted newer_entry l.
Proof.
  exists (get_ok [] (handover_results handling index_resubmitted "93")).
  split; [replies |].
  apply (handover_results_newest_first handling index_resubmitted "93"). replies.
Defined.

(** X15: a listing has at most 1000 entries. *)
Theorem handover_results_at_most_1000 (query_string : string → doc → bool)
    (index : list doc) (release : string) (l : list (gmap string value)) :
  handover_results query_string index release = Ok l → length l ≤ 1000.
Proof.
  intros H%for_hits_entries. apply Forall2_length in H. rewrite <- H.
  etrans; [apply sublist_length, sublist_List_filter |].
  apply es_search_length.
Qed.

Lemma handover_results_at_most_1000_witness :
  ∃ l, handover_results handling index_two_releases "93" = Ok l ∧ length l ≤ 1000.
Proof.
  exists (get_ok [] (handover_results handling index_two_releases "93")).
  split; [replies |].
  apply (handover_results_at_most_1000 handling index_two_releases "93"). replies.
Defined.


Lemma set_current_message_error index t (result : gmap string value) e :
  es_search index (must_token_type t "ERROR") 1 = [e] →
  set_current_message index t result !! "current_message" =
    Some (VStr (message (_source e))).
Proof.
  intros H. unfold set_current_message. rewrite H. simpl.
  by rewrite lookup_insert_eq.
Qed.

Lemma set_current_message_info index t (result : gmap string value) e :
  es_search index (must_token_type t "ERROR") 1 = [] →
  es_search index (must_token_type t "INFO") 1 = [e] →
  set_current_message index t result !! "current_message" =
    Some (VStr (message (_source e))).
Proof.
  intros Herr H. unfold set_current_message. rewrite Herr, H. simpl.
  by rewrite lookup_insert_eq.
Qed.

(** X16: the current_message of a listed token is the message the status
    request for that token replies with, whenever that request succeeds. *)
Theorem handover_results_current_message (query_string : string → doc → bool)
    (index : list doc) (release handover_token : string)
    (l l' : list (gmap string value)) :
  handover_results query_string index release = Ok l →
  handover_result index handover_token = Ok l' →
  ∀ r r', r ∈ l → r' ∈ l' →
    r !! "handover_token" = Some (VStr handover_token) →
    r !! "current_message" = r' !! "message".
Proof.
  intros H%for_hits_listed H' r r' Hr Hr' Htok.
  destruct (listed_hit _ _ _ _ _ H Hr)
    as (d & _ & _ & _ & (_ & _ & _ & Hcopy) & _ & _ & token & base & Hd & ->).
  assert (token = VStr handover_token) as ->.
  { eapply Forall_forall in Hcopy; [| by apply list_elem_of_In; right; left].
    simpl in Hcopy. congruence. }
  simpl. rewrite handover_result_hits in H'.
  destruct (es_search_newest index (must_token_type handover_token "ERROR"))
    as [[Herr _] | (e & Herr & _)]; rewrite Herr in H'.
  - destruct (es_search_newest index (must_token_type handover_token "INFO"))
      as [[Hinfo _] | (e & Hinfo & _)]; rewrite Hinfo in H'; [done |].
    destruct (info_detail e) as [r0|] eqn:E; simpl in H'; [| done].
    simplify_eq. apply list_elem_of_singleton in Hr' as ->.
    apply info_detail_copied in E as (_ & -> & _).
    by apply set_current_message_info.
  - destruct (error_detail e) as [r0|] eqn:E; simpl in H'; [| done].
    simplify_eq. apply list_elem_of_singleton in Hr' as ->.
    apply error_detail_copied in E as (_ & -> & _).
    by apply set_current_message_error.
Qed.

Lemma handover_results_current_message_witness :
  ∃ l l',
    handover_results handling index_failed "93" = Ok l ∧
    handover_result index_failed "T1" = Ok l' ∧
    ∀ r r', r ∈ l → r' ∈ l' →
      r !! "handover_token" = Some (VStr "T1") →
      r !! "current_message" = r' !! "message".
Proof.
  exists (get_ok [] (handover_results handling index_failed "93")),
         (get_ok [] (handover_result index_failed "T1")).
  split; [replies |]. split; [replies |].
  apply (handover_results_current_message handling index_failed "93" "T1"); replies.
Defined.

(** ** When a listing succeeds *)

Lemma handover_entry_well_formed index release d entry :
  handover_entry index release d = Ok entry → well_formed_hit release d.
Proof.
  unfold well_formed_hit, accepts, handover_entry, valid_handover, getitem.
  destruct (params (_source d) !! "src_uri") as [[s|n]|] eqn:Hsrc; simpl; [| done ..].
  destruct (matches s release) as [[|]|]; simpl;
    [| intros _; split; [by eauto | done] | done].
  destruct (params (_source d) !! "comment") eqn:Hcomment; simpl; [| done].
  destruct (params (_source d) !! "handover_token") eqn:Htoken; simpl; [| done].
  destruct (params (_source d) !! "contact") eqn:Hcontact; simpl; [| done].
  destruct (params (_source d) !! "tgt_uri") eqn:Htgt; simpl; [| done].
  intros _. split; [by eauto |]. intros _.
  unfold has_params, required_params.
  repeat (apply Forall_cons; split); by eauto.
Qed.

(** X17: a listing is returned only when every hit of the listing query
    has a string src_uri and every hit that [valid_handover] accepts has
    the copied params; a single hit that has not makes the whole request
    raise, and no partial listing is returned. *)
Theorem handover_results_succeeds (query_string : string → doc → bool)
    (index : list doc) (release : string) (l : list (gmap string value)) :
  handover_results query_string index release = Ok l →
  Forall (well_formed_hit release) (candidates query_string index release).
Proof.
  unfold handover_results. revert l.
  induction (candidates query_string index release) as [|d hits IH];
    intros l H; simpl in H; [by constructor |].
  destruct (handover_entry index release d) as [entry|] eqn:E; simpl in H; [| done].
  destruct (for_hits index release hits) as [rest|]; simpl in H; [| done].
  apply Forall_cons. split; [by eapply handover_entry_well_formed | by eapply IH].
Qed.

Lemma handover_results_succeeds_witness :
  Forall (well_formed_hit "93") (candidates handling index_two_releases "93").
Proof.
  apply (handover_results_succeeds handling index_two_releases "93"
           (get_ok [] (handover_results handling index_two_releases "93"))).
  replies.
Defined.

(** X18: a listing is empty, and not an error, exactly when
    [valid_handover] rejects every hit of the listing query. *)
Theorem handover_results_empty (query_string : string → doc → bool)
    (index : list doc) (release : string) :
  handover_results query_string index release = Ok [] ↔
  Forall (λ d, valid_handover d release = Ok false)
         (candidates query_string index release).
Proof.
  unfold handover_results.
  induction (candidates query_string index release) as [|d hits IH]; simpl;
    [by split; [constructor |] |].
  rewrite Forall_cons, <- IH.
  destruct (handover_entry index release d) as [entry|] eqn:E; simpl.
  - apply handover_entry_inv in E.
    destruct (for_hits index release hits) as [rest|]; simpl.
    + destruct entry as [r|].
      * destruct E as [E _]. split; [done | intros [? _]; congruence].
      * split; [intros [= ->]; done | intros [_ [= ->]]; done].
    + split; [done | by intros [_ ?]].
  - split; [done |]. intros [Hv _]. unfold handover_entry in E.
    rewrite Hv in E. done.
Qed.

(** ** POST /handovers *)

(** X19: the Content-Type of a request is accepted exactly when it begins
    with application/json, whatever follows (a charset, say). *)
Theorem json_pattern_match_prefix (content_type : string) :
  json_pattern_match content_type = true ↔
  ∃ rest, content_type = "application/json" +:+ rest.
Proof.
  unfold json_pattern_match. generalize "application/json" as literal.
  intros literal. revert content_type.
  induction literal as [|c literal IH]; intros [|c' s2]; simpl.
  - split; [by eauto | done].
  - split; [by eauto | done].
  - split; [done | by intros [? ?]].
  - destruct (Ascii.ascii_dec c c') as [-> | Hne].
    + rewrite IH. split; intros [rest Hrest]; exists rest; congruence.
    + split; [done | intros [rest [= ? ?]]; congruence].
Qed.

(** X20: a request whose Content-Type is not accepted, or whose body is
    a JSON object without src_uri, contact or comment, raises an
    HTTPRequestError that does not depend on [handover_database]: nothing
    is submitted. *)
Theorem handovers_rejects (status_code : Z) (content_type : string)
    (request_json : outcome json) :
  json_pattern_match content_type = false ∨
    (∃ fields, request_json = Ok (JObject fields) ∧
       (fields !! "src_uri" = None ∨ fields !! "contact" = None ∨
        fields !! "comment" = None)) →
  ∃ msg, ∀ (ticket : Type) (handover_database : json → submitted ticket),
    handovers handover_database status_code (Ok content_type) request_json =
      Raise (HTTPRequestError msg status_code).
Proof.
  unfold handovers. simpl.
  destruct (json_pattern_match content_type); [| by eauto].
  intros [? | (fields & -> & Hmissing)]; [done |]. simpl.
  eexists. intros ticket handover_database.
  repeat case_bool_decide; simpl; try reflexivity.
  destruct Hmissing as [? | [? | ?]]; done.
Qed.

Lemma handovers_rejects_witness :
  ∃ msg, ∀ (ticket : Type) (handover_database : json → submitted ticket),
    handovers handover_database 400 (Ok "application/json")
      (Ok (JObject (<["src_uri" := VStr "mysql://u@h:1/homo_sapiens_core_93_38"]>
                      (<["comment" := VStr "new"]> ∅)))) =
      Raise (HTTPRequestError msg 400).
Proof.
  apply (handovers_rejects 400 "application/json"). right.
  eexists. split; [reflexivity |]. right. left. vm_compute; reflexivity.
Defined.

(** X21: a ticket is returned exactly when the request has a Content-Type
    that is accepted, [request.json] gives a value in which src_uri,
    contact and comment are found, and [handover_database] returns that
    ticket for it. *)
Theorem handovers_ticket {ticket : Type}
    (handover_database : json → submitted ticket) (status_code : Z)
    (header : outcome string) (request_json : outcome json) (t : ticket) :
  handovers handover_database status_code header request_json = Ok t ↔
  ∃ c spec,
    header = Ok c ∧ json_pattern_match c = true ∧
    request_json = Ok spec ∧
    not_in "src_uri" spec = Ok false ∧ not_in "contact" spec = Ok false ∧
    not_in "comment" spec = Ok false ∧ handover_database spec = Ticket t.
Proof.
  unfold handovers. split.
  - destruct header as [c|]; simpl; [| done].
    destruct (json_pattern_match c) eqn:Hc; [| done].
    destruct request_json as [spec|]; simpl; [| done].
    destruct (not_in "src_uri" spec) as [[|]|] eqn:H1; simpl; [done | | done].
    destruct (not_in "contact" spec) as [[|]|] eqn:H2; simpl; [done | | done].
    destruct (not_in "comment" spec) as [[|]|] eqn:H3; simpl; [done | | done].
    destruct (handover_database spec) eqn:Hd; [| done ..].
    intros [= ->]. exists c, spec. by split_and!.
  - intros (c & spec & -> & Hc & -> & H1 & H2 & H3 & Hd). simpl. rewrite Hc. simpl.
    rewrite H1. simpl. rewrite H2. simpl. rewrite H3. simpl. by rewrite Hd.
Qed.

(** X22: an entry of a listing whose token has an ERROR or INFO report in
    the index has a current_message, the message of a report of that
    token. *)
Theorem handover_results_has_current_message (query_string : string → doc → bool)
    (index : list doc) (release handover_token : string)
    (l : list (gmap string value)) (d : doc) :
  handover_results query_string index release = Ok l →
  d ∈ index →
  must_token_type handover_token "ERROR" d = true ∨
    must_token_type handover_token "INFO" d = true →
  ∀ r, r ∈ l → r !! "handover_token" = Some (VStr handover_token) →
    ∃ e, e ∈ index ∧
         params (_source e) !! "handover_token" = Some (VStr handover_token) ∧
         r !! "current_message" = Some (VStr (message (_source e))).
Proof.
  intros H%for_hits_listed Hd Hty r Hr Htok.
  destruct (listed_hit _ _ _ _ _ H Hr)
    as (d' & _ & _ & _ & (_ & _ & _ & Hcopy) & _ & _ & token & base & Hd' & ->).
  assert (token = VStr handover_token) as ->.
  { eapply Forall_forall in Hcopy; [| by apply list_elem_of_In; right; left].
    simpl in Hcopy. congruence. }
  simpl.
  destruct (es_search_newest index (must_token_type handover_token "ERROR"))
    as [[Herr Hnone] | (e & Herr & He & [Hetok _]%must_token_type_true & _)].
  - destruct Hty as [Hty | Hty]; [by rewrite (Hnone d Hd) in Hty |].
    destruct (es_search_newest index (must_token_type handover_token "INFO"))
      as [[_ Hnone'] | (e & Hinfo & He & [Hetok _]%must_token_type_true & _)].
    { by rewrite (Hnone' d Hd) in Hty. }
    exists e. split_and!; [done .. |]. by apply set_current_message_info.
  - exists e. split_and!; [done .. |]. by apply set_current_message_error.
Qed.

Lemma handover_results_has_current_message_witness :
  ∃ l, handover_results handling index_running "93" = Ok l ∧
    ∀ r, r ∈ l →
      r !! "handover_token" = Some (VStr "T1") →
      ∃ e, e ∈ index_running ∧
           params (_source e) !! "handover_token" = Some (VStr "T1") ∧
           r !! "current_message" = Some (VStr (message (_source e))).
Proof.
  exists (get_ok [] (handover_results handling index_running "93")).
  split; [replies |].
  apply (handover_results_has_current_message handling index_running "93" "T1" _
           (report "a1" "INFO" 1 "Handling tiger" tiger)).
  - replies.
  - left.
  - right. vm_compute; reflexivity.
Defined.

(** X23: on an identifier of ASCII characters, only a release that is a
    non-empty run of digits is ever matched; an empty release matches
    nothing. *)
Theorem matches_true_release_digits (identifier release : string) :
  ascii_only identifier = true →
  matches identifier release = Ok true → digits release.
Proof.
  intros _. unfold matches.
  destruct (handover_pattern identifier) as [m|] eqn:E; [| done].
  destruct (handover_pattern_sound _ _ E) as (_ & _ & _ & _ & Hg1 & Hg3 & _).
  destruct (String.eqb (first m) release) eqn:E1.
  { apply String.eqb_eq in E1 as <-. done. }
  destruct (second m) as [g|]; unfold group_eq; [| done].
  destruct (String.eqb g release) eqn:E2; [| done].
  apply String.eqb_eq in E2 as <-. done.
Qed.

Lemma matches_true_release_digits_witness : digits "146".
Proof.
  apply (matches_true_release_digits "mysql://u@h:1/x_core_93_146" "146");
    vm_compute; reflexivity.
Defined.
